(** * autocomplete-python: the Jedi bridge, [lib/completion.py]

    A shallow embedding of [JediCompletion] and the properties of its
    request/response layer.  The analysis engine (jedi), the JSON decoder
    and the file system are external to the bridge: they appear as the
    fields of an environment record.  Python [str] values are modelled as
    strings of ASCII characters. *)

From Stdlib Require Import String Ascii List ZArith Lia Bool DecimalString.
Import ListNotations.
Set Warnings "-register-all".
Open Scope list_scope.
Open Scope string_scope.

(** ** Python string operations used by the bridge *)

Module Py.

Definition code (c : ascii) : nat := nat_of_ascii c.

Definition between (lo hi : nat) (c : ascii) : bool :=
  (lo <=? code c)%nat && (code c <=? hi)%nat.

Definition is_upper (c : ascii) : bool := between 65 90 c.
Definition is_lower (c : ascii) : bool := between 97 122 c.
Definition is_digit (c : ascii) : bool := between 48 57 c.

(** [\w] of the [re] module. *)
Definition is_word (c : ascii) : bool :=
  is_upper c || is_lower c || is_digit c || Ascii.eqb c "_".

(** The characters [str.strip()] removes. *)
Definition is_space (c : ascii) : bool :=
  between 9 13 c || between 28 32 c.

Definition to_lower (c : ascii) : ascii :=
  if is_upper c then ascii_of_nat (code c + 32) else c.

Fixpoint lower (s : string) : string :=
  match s with
  | EmptyString => EmptyString
  | String c s' => String (to_lower c) (lower s')
  end.

Fixpoint forall_chars (p : ascii -> bool) (s : string) : bool :=
  match s with
  | EmptyString => true
  | String c s' => p c && forall_chars p s'
  end.

Fixpoint exists_char (p : ascii -> bool) (s : string) : bool :=
  match s with
  | EmptyString => false
  | String c s' => p c || exists_char p s'
  end.

(** [s.isupper()]: no lowercase character and at least one uppercase one. *)
Definition isupper (s : string) : bool :=
  forall_chars (fun c => negb (is_lower c)) s && exists_char is_upper s.

(** [s.startswith(p)]. *)
Definition startswith (s p : string) : bool := prefix p s.

(** [s.split(sep)] for a one-character separator: never the empty list. *)
Fixpoint split (sep : ascii) (s : string) : list string :=
  match s with
  | EmptyString => [EmptyString]
  | String c s' =>
      if Ascii.eqb c sep then EmptyString :: split sep s'
      else match split sep s' with
           | h :: t => String c h :: t
           | [] => [String c EmptyString]
           end
  end.

(** [s.split(sep)[0]]. *)
Definition split_head (sep : ascii) (s : string) : string :=
  match split sep s with
  | h :: _ => h
  | [] => EmptyString
  end.

(** [s.replace(c, '')] for a one-character [c]. *)
Fixpoint remove_char (c : ascii) (s : string) : string :=
  match s with
  | EmptyString => EmptyString
  | String a s' =>
      if Ascii.eqb a c then remove_char c s' else String a (remove_char c s')
  end.

(** [re.sub(pat, '', s)] for a literal, non-empty [pat]: the occurrences are
    removed from left to right, without overlap.  [skip] counts the
    characters of the current occurrence still to drop. *)
Fixpoint remove_all_from (pat : string) (skip : nat) (s : string) : string :=
  match s with
  | EmptyString => EmptyString
  | String c s' =>
      match skip with
      | S k => remove_all_from pat k s'
      | O =>
          if prefix pat s then remove_all_from pat (String.length pat - 1) s'
          else String c (remove_all_from pat 0 s')
      end
  end.

Definition re_sub_delete (pat s : string) : string := remove_all_from pat 0 s.

Fixpoint lstrip (s : string) : string :=
  match s with
  | EmptyString => EmptyString
  | String c s' => if is_space c then lstrip s' else s
  end.

Fixpoint rev_string (acc s : string) : string :=
  match s with
  | EmptyString => acc
  | String c s' => rev_string (String c acc) s'
  end.

Definition rstrip (s : string) : string :=
  rev_string EmptyString (lstrip (rev_string EmptyString s)).

(** [s.strip()]. *)
Definition strip (s : string) : string := rstrip (lstrip s).

(** [sep.join(l)]. *)
Definition join (sep : string) (l : list string) : string := String.concat sep l.

(** [str(n)] of an integer. *)
Definition str_of_Z (z : Z) : string := NilZero.string_of_int (Z.to_int z).

(** Truth value of a [str]. *)
Definition nonempty (s : string) : bool :=
  match s with EmptyString => false | _ => true end.

(** [WORD_RE.match(s) is not None]. *)
Definition WORD_RE_match (s : string) : bool :=
  match s with
  | EmptyString => false
  | String c _ => is_word c
  end.

(** [ARGUMENT_RE.match(s)], truth value. *)
Definition ARGUMENT_RE_match (s : string) : bool :=
  match s with
  | EmptyString => false
  | String c _ =>
      is_word c || Ascii.eqb c "=" || Ascii.eqb c "*"
      || Ascii.eqb c "034" || Ascii.eqb c "'"
  end.

(** [x in l] for a list of [str]. *)
Definition mem (x : string) (l : list string) : bool :=
  existsb (String.eqb x) l.

End Py.

(** ** JSON values and the encoder

    The numbers are the integers: the bridge computes with [line] and
    [column] only, and echoes the rest. An object keeps its fields in
    order, as a [dict] does. *)

Inductive json : Type :=
| JNull
| JBool (b : bool)
| JInt (z : Z)
| JStr (s : string)
| JArr (l : list json)
| JObj (kvs : list (string * json)).

Module Json.

Definition hex_digit (n : nat) : ascii :=
  if (n <? 10)%nat then ascii_of_nat (48 + n) else ascii_of_nat (87 + n).

(** One character of a string literal, as [json.dumps] writes it with
    [ensure_ascii]. *)
Definition escape_char (c : ascii) : string :=
  let n := Py.code c in
  if (n =? 34)%nat then "\" ++ String c EmptyString
  else if (n =? 92)%nat then "\\"
  else if (n =? 10)%nat then "\n"
  else if (n =? 13)%nat then "\r"
  else if (n =? 9)%nat then "\t"
  else if (n =? 8)%nat then "\b"
  else if (n =? 12)%nat then "\f"
  else if Py.between 32 126 c then String c EmptyString
  else "\u00" ++ String (hex_digit (n / 16)) (String (hex_digit (n mod 16)) EmptyString).

Fixpoint escape (s : string) : string :=
  match s with
  | EmptyString => EmptyString
  | String c s' => escape_char c ++ escape s'
  end.

Definition dquote : string := String "034" EmptyString.

Definition quote (s : string) : string := dquote ++ escape s ++ dquote.

(** [json.dumps] with its default separators. *)
Fixpoint dumps (j : json) : string :=
  match j with
  | JNull => "null"
  | JBool true => "true"
  | JBool false => "false"
  | JInt z => Py.str_of_Z z
  | JStr s => quote s
  | JArr l => "[" ++ Py.join ", " (map dumps l) ++ "]"
  | JObj kvs =>
      "{" ++ Py.join ", " (map (fun '(k, v) => quote k ++ ": " ++ dumps v) kvs) ++ "}"
  end.

(** Truth value of a decoded JSON value. *)
Definition truthy (j : json) : bool :=
  match j with
  | JNull => false
  | JBool b => b
  | JInt z => negb (z =? 0)%Z
  | JStr s => Py.nonempty s
  | JArr l => match l with [] => false | _ => true end
  | JObj kvs => match kvs with [] => false | _ => true end
  end.

(** Key lookup in the fields of an object. *)
Fixpoint lookup (k : string) (kvs : list (string * json)) : option json :=
  match kvs with
  | [] => None
  | (k', v) :: kvs' => if String.eqb k k' then Some v else lookup k kvs'
  end.

(** [d.get(k, default)] on the fields of a dict. *)
Definition get (kvs : list (string * json)) (k : string) (default : json) : json :=
  match lookup k kvs with
  | Some v => v
  | None => default
  end.

(** [j == s] for a [str] constant [s]. *)
Definition eq_str (j : json) (s : string) : bool :=
  match j with
  | JStr s' => String.eqb s' s
  | _ => false
  end.

Definition of_option (o : option string) : json :=
  match o with
  | Some s => JStr s
  | None => JNull
  end.

End Json.

(** ** Exceptions and the two effect layers

    A computation of the bridge either returns or raises; [result] is that
    outcome.  Code that also changes the process state ([sys.path], the
    attributes of [self], the output streams) is a state transformer that
    keeps the state reached when an exception is raised. *)

Inductive exn : Type :=
| KeyError
| ValueError
| TypeError
| AttributeError
| RecursionError
| EngineError (what : string).

Inductive result (A : Type) : Type :=
| Ok (a : A)
| Raise (e : exn).

Arguments Ok {A} a.
Arguments Raise {A} e.

Definition rbind {A B : Type} (c : result A) (k : A -> result B) : result B :=
  match c with
  | Ok a => k a
  | Raise e => Raise e
  end.

Notation "x <- c ;; k" := (rbind c (fun x => k))
  (at level 100, c at next level, right associativity).

(** [try: c  except KeyError: handler]. *)
Definition except_KeyError {A : Type} (c : result A) (handler : result A) : result A :=
  match c with
  | Raise KeyError => handler
  | _ => c
  end.

(** ** What the bridge reads of the engine's objects *)

Definition newline : string := String "010" EmptyString.

Record Param : Type := {
  param_name : string;
  param_description : string
}.

(** A child of a definition node: its class name and its source text. *)
Record Node : Type := {
  node_class : string;
  get_code : string
}.

(** The scope [parent()] returns. *)
Record Scope : Type := {
  scope_name : string;
  scope_type : string
}.

(** A completion, definition, usage or signature.  [params] and
    [_definition] are [None] when the attribute is missing ([_definition]
    also when it is [None]); [parent] is [None] when [parent()] is;
    [module_path] and [docstring] are [None] when the engine gives [None]. *)
Record Candidate : Type := {
  name : string;
  type : string;
  module_path : option string;
  module_name : string;
  line : Z;
  column : Z;
  in_builtin_module : bool;
  docstring : option string;
  params : option (list Param);
  _definition : option (list Node);
  parent : option Scope
}.

(** [jedi.api.Script] as the bridge builds it, with the [_pos] it sets. *)
Record Script : Type := {
  code : json;
  script_path : json;
  project_path : string;
  added_sys_path : list json;
  _pos : Z * json
}.

(** The process-wide settings the engine sees. *)
Record Settings : Type := {
  search_path : list string;
  case_insensitive : json
}.

(** The analysis engine. [new_Script] is the construction of the project and
    of the script, which may fail; [name_eq] is [==] on the engine's
    objects. *)
Record Jedi : Type := {
  new_Script : Settings -> json -> json -> string -> list json -> result unit;
  get_signatures : Settings -> Script -> result (list Candidate);
  complete : Settings -> Script -> result (list Candidate);
  completions : Settings -> Script -> result (list Candidate);
  goto_assignments : Settings -> Script -> result (list Candidate);
  usages : Settings -> Script -> result (list Candidate);
  name_goto_assignments : Candidate -> result (list Candidate);
  name_eq : Candidate -> Candidate -> bool
}.

(** Everything outside the bridge: the engine, [json.loads] ([None] when it
    raises), [os.path.isfile], the text [traceback.format_exc] gives for an
    exception, and the depth of recursion the interpreter allows. *)
Record Env : Type := {
  jedi : Jedi;
  json_loads : string -> option json;
  isfile : string -> bool;
  format_exc : exn -> string;
  recursion_limit : nat
}.

(** ** The process state *)

(** The file objects [self.devnull], [self.stdout] and [self.stderr]. *)
Inductive stream : Type := Devnull | Stdout | Stderr.

(** A reference to a list object. *)
Definition ref : Type := nat.

(** [heap] holds the list objects; [sys_path] and [default_sys_path] are
    the bindings [sys.path] and [self.default_sys_path], which refer to
    them.  [stdout_data] and [stderr_data] are the chunks written so far to
    the two real streams. *)
Record State : Type := {
  heap : list (list string);
  sys_path : ref;
  default_sys_path : ref;
  use_snippets : json;
  show_doc_strings : json;
  fuzzy_matcher : json;
  extra_paths : list json;
  case_insensitive_completion : json;
  sys_stdout : stream;
  sys_stderr : stream;
  stdout_data : list string;
  stderr_data : list string
}.

Definition deref (st : State) (r : ref) : list string := nth r (heap st) [].

Fixpoint update_nth {A : Type} (n : nat) (x : A) (l : list A) : list A :=
  match l, n with
  | [], _ => []
  | _ :: t, O => x :: t
  | h :: t, S n' => h :: update_nth n' x t
  end.

Definition M (A : Type) : Type := State -> result A * State.

Definition ret {A : Type} (a : A) : M A := fun st => (Ok a, st).

Definition raise {A : Type} (e : exn) : M A := fun st => (Raise e, st).

Definition bind {A B : Type} (c : M A) (k : A -> M B) : M B :=
  fun st =>
    match c st with
    | (Ok a, st') => k a st'
    | (Raise e, st') => (Raise e, st')
    end.

Notation "x <~ c ;; k" := (bind c (fun x => k))
  (at level 100, c at next level, right associativity).

(** A computation that reads the state and may raise. *)
Definition lift {A : Type} (f : State -> result A) : M A := fun st => (f st, st).

Definition modify (f : State -> State) : M unit := fun st => (Ok tt, f st).

Definition set_sys_path (r : ref) (st : State) : State :=
  {| heap := heap st; sys_path := r; default_sys_path := default_sys_path st;
     use_snippets := use_snippets st; show_doc_strings := show_doc_strings st;
     fuzzy_matcher := fuzzy_matcher st; extra_paths := extra_paths st;
     case_insensitive_completion := case_insensitive_completion st;
     sys_stdout := sys_stdout st; sys_stderr := sys_stderr st;
     stdout_data := stdout_data st; stderr_data := stderr_data st |}.

Definition set_heap (h : list (list string)) (st : State) : State :=
  {| heap := h; sys_path := sys_path st; default_sys_path := default_sys_path st;
     use_snippets := use_snippets st; show_doc_strings := show_doc_strings st;
     fuzzy_matcher := fuzzy_matcher st; extra_paths := extra_paths st;
     case_insensitive_completion := case_insensitive_completion st;
     sys_stdout := sys_stdout st; sys_stderr := sys_stderr st;
     stdout_data := stdout_data st; stderr_data := stderr_data st |}.

Definition set_config (snippets docs fuzzy case_ins : json) (st : State) : State :=
  {| heap := heap st; sys_path := sys_path st; default_sys_path := default_sys_path st;
     use_snippets := snippets; show_doc_strings := docs;
     fuzzy_matcher := fuzzy; extra_paths := extra_paths st;
     case_insensitive_completion := case_ins;
     sys_stdout := sys_stdout st; sys_stderr := sys_stderr st;
     stdout_data := stdout_data st; stderr_data := stderr_data st |}.

Definition set_extra_paths (l : list json) (st : State) : State :=
  {| heap := heap st; sys_path := sys_path st; default_sys_path := default_sys_path st;
     use_snippets := use_snippets st; show_doc_strings := show_doc_strings st;
     fuzzy_matcher := fuzzy_matcher st; extra_paths := l;
     case_insensitive_completion := case_insensitive_completion st;
     sys_stdout := sys_stdout st; sys_stderr := sys_stderr st;
     stdout_data := stdout_data st; stderr_data := stderr_data st |}.

Definition set_streams (out err : stream) (st : State) : State :=
  {| heap := heap st; sys_path := sys_path st; default_sys_path := default_sys_path st;
     use_snippets := use_snippets st; show_doc_strings := show_doc_strings st;
     fuzzy_matcher := fuzzy_matcher st; extra_paths := extra_paths st;
     case_insensitive_completion := case_insensitive_completion st;
     sys_stdout := out; sys_stderr := err;
     stdout_data := stdout_data st; stderr_data := stderr_data st |}.

(** [f.write(text)] on a file object: the null device drops the text. *)
Definition write (f : stream) (text : string) (st : State) : State :=
  {| heap := heap st; sys_path := sys_path st; default_sys_path := default_sys_path st;
     use_snippets := use_snippets st; show_doc_strings := show_doc_strings st;
     fuzzy_matcher := fuzzy_matcher st; extra_paths := extra_paths st;
     case_insensitive_completion := case_insensitive_completion st;
     sys_stdout := sys_stdout st; sys_stderr := sys_stderr st;
     stdout_data :=
       match f with
       | Stdout => (stdout_data st ++ [text])%list
       | _ => stdout_data st
       end;
     stderr_data :=
       match f with
       | Stderr => (stderr_data st ++ [text])%list
       | _ => stderr_data st
       end |}.

(** The settings the engine sees in a state. *)
Definition settings (st : State) : Settings :=
  {| search_path := deref st (sys_path st);
     case_insensitive := case_insensitive_completion st |}.

(** [JediCompletion.__init__] in a process whose [sys.path] holds [boot]:
    [self.default_sys_path = sys.path] binds the same list object. *)
Definition __init__ (boot : list string) : State :=
  {| heap := [boot]; sys_path := 0%nat; default_sys_path := 0%nat;
     use_snippets := JNull; show_doc_strings := JNull; fuzzy_matcher := JNull;
     extra_paths := []; case_insensitive_completion := JBool true;
     sys_stdout := Stdout; sys_stderr := Stderr;
     stdout_data := []; stderr_data := [] |}.

(** ** Path handling of [os.path] (POSIX) *)

Module OsPath.

Definition is_sep (c : ascii) : bool := Ascii.eqb c "/".

(** [p[:p.rfind('/') + 1]]. *)
Fixpoint upto_last_sep (p : string) : string :=
  match p with
  | EmptyString => EmptyString
  | String c p' =>
      if Py.exists_char is_sep p then String c (upto_last_sep p') else EmptyString
  end.

(** [head.rstrip('/')]. *)
Fixpoint rstrip_sep (head : string) : string :=
  match head with
  | EmptyString => EmptyString
  | String c head' =>
      match rstrip_sep head' with
      | EmptyString => if is_sep c then EmptyString else String c EmptyString
      | r => String c r
      end
  end.

(** The head of [os.path.split(p)]. *)
Definition split_head (p : string) : string :=
  let head := upto_last_sep p in
  if Py.nonempty head && negb (Py.forall_chars is_sep head)
  then rstrip_sep head else head.

Fixpoint ends_with_sep (a : string) : bool :=
  match a with
  | EmptyString => false
  | String c EmptyString => is_sep c
  | String _ a' => ends_with_sep a'
  end.

(** [os.path.join(a, b)] for a relative [b]. *)
Definition join (a b : string) : string :=
  if negb (Py.nonempty a) || ends_with_sep a then a ++ b else a ++ "/" ++ b.

End OsPath.

(** ** [JediCompletion] *)

(** What a serializer hands to [_write_response]: the text [json.dumps]
    gave, or a list. *)
Inductive pyobj : Type :=
| PyStr (s : string)
| PyList (l : list json).

Definition basic_types : list (string * string) :=
  [("module", "import"); ("instance", "variable");
   ("statement", "value"); ("param", "variable")].

Fixpoint dict_get (d : list (string * string)) (k default : string) : string :=
  match d with
  | [] => default
  | (k', v) :: d' => if String.eqb k k' then v else dict_get d' k default
  end.

Definition _get_definition_type (definition : Candidate) : string :=
  if negb (Py.mem (type definition) ["import"; "keyword"])
     && in_builtin_module definition
  then "builtin"
  else if Py.mem (type definition) ["statement"] && Py.isupper (name definition)
  then "constant"
  else dict_get basic_types (type definition) (type definition).

Definition nodes_to_display : list string :=
  ["InstanceElement"; "String"; "Node"; "Lambda"; "Number"].

Definition _additional_info (completion : Candidate) : string :=
  match _definition completion with
  | None => EmptyString
  | Some children =>
      if String.eqb (type completion) "statement"
      then Py.remove_char "010"
             (Py.join EmptyString
                (map get_code
                   (filter (fun c => Py.mem (node_class c) nodes_to_display) children)))
      else EmptyString
  end.

(** The filter [if p] of the source keeps every parameter: the objects of
    the engine are all true. *)
Definition _generate_signature (completion : Candidate) : string :=
  match params completion with
  | None => EmptyString
  | Some ps =>
      if Py.mem (type completion) ["module"] then EmptyString
      else name completion ++ "(" ++ Py.join ", " (map param_description ps) ++ ")"
  end.

(** Truth value of [module_path]. *)
Definition has_path (p : option string) : bool :=
  match p with
  | Some s => Py.nonempty s
  | None => false
  end.

(** Truth value of the default of a parameter. *)
Definition has_value (value : option string) : bool :=
  match value with
  | Some v => Py.nonempty v
  | None => false
  end.

Definition value_text (value : option string) : string :=
  match value with
  | Some v => v
  | None => EmptyString
  end.

(** The inner loop of [_get_call_signatures], over [enumerate(signature.params)]
    from position [pos]. *)
Fixpoint signature_params (signature : Candidate) (pos : nat) (ps : list Param)
  : list (Candidate * string * option string) :=
  match ps with
  | [] => []
  | param :: ps' =>
      let others := signature_params signature (S pos) ps' in
      if negb (Py.nonempty (param_name param)) then others
      else if String.eqb (param_name param) "self" && (pos =? 0)%nat then others
      else if negb (Py.WORD_RE_match (param_name param)) then others
      else
        let description := Py.re_sub_delete "param " (param_description param) in
        let '(name, value) :=
          match Py.split "=" description with
          | [n; v] => (n, Some v)
          | _ => (description, None)
          end in
        if Py.startswith name "*" then others
        else (signature, name, value) :: others
  end.

Fixpoint signatures_loop (call_signatures : list Candidate)
  : result (list (Candidate * string * option string)) :=
  match call_signatures with
  | [] => Ok []
  | signature :: rest =>
      match params signature with
      | None => Raise AttributeError
      | Some ps =>
          _signatures <- signatures_loop rest ;;
          Ok (signature_params signature 0 ps ++ _signatures)%list
      end
  end.

Definition _get_call_signatures (env : Env) (self : State) (script : Script)
  : result (list (Candidate * string * option string)) :=
  call_signatures <-
    except_KeyError (get_signatures (jedi env) (settings self) script) (Ok []) ;;
  signatures_loop call_signatures.

(** [c['text']] of an entry already built. *)
Definition entry_text (c : json) : string :=
  match c with
  | JObj kvs =>
      match Json.lookup "text" kvs with
      | Some (JStr s) => s
      | _ => EmptyString
      end
  | _ => EmptyString
  end.

(** The description of a completion entry, by [self.show_doc_strings]. *)
Definition description_json (self : State) (c : Candidate) : json :=
  if Json.truthy (show_doc_strings self) then Json.of_option (docstring c)
  else JStr (_generate_signature c).

(** The entry of [_serialize_completions] for one call-signature parameter. *)
Definition argument_entry (self : State) (signature : Candidate) (name : string)
    (value : option string) : json :=
  JObj
    ([("type", JStr "property"); ("rightLabel", JStr (_additional_info signature))]
     ++ (if has_value value
         then [("snippet", JStr (name ++ "=${1:" ++ value_text value ++ "}$0"));
               ("text", JStr (name ++ "=" ++ value_text value))]
         else [("snippet", JStr (name ++ "=$1$0"));
               ("text", JStr name);
               ("displayText", JStr name)])
     ++ [("description", description_json self signature)])%list.

(** The first loop of [_serialize_completions]. *)
Fixpoint arguments_loop (self : State) (prefix : json)
    (sigs : list (Candidate * string * option string)) : result (list json) :=
  match sigs with
  | [] => Ok []
  | (signature, name, value) :: rest =>
      skip <-
        (if negb (Json.truthy (fuzzy_matcher self))
         then match prefix with
              | JStr p => Ok (negb (Py.startswith (Py.lower name) (Py.lower p)))
              | _ => Raise AttributeError
              end
         else Ok false) ;;
      _completions <- arguments_loop self prefix rest ;;
      if skip then Ok _completions
      else Ok (argument_entry self signature name value :: _completions)
  end.

(** The entry of [_serialize_completions] for one general completion. *)
Definition completion_entry (self : State) (completion : Candidate) : json :=
  JObj [("text", JStr (name completion));
        ("type", JStr (_get_definition_type completion));
        ("description", description_json self completion);
        ("rightLabel", JStr (_additional_info completion))].

(** The test that drops a completion: some entry built so far has a text
    whose part before the first [=] is the text of the completion. *)
Definition already_have (_completions : list json) (_completion : json) : bool :=
  existsb
    (fun c => String.eqb (Py.split_head "=" (entry_text c)) (entry_text _completion))
    _completions.

(** The second loop of [_serialize_completions]. *)
Fixpoint completions_loop (self : State) (_completions : list json)
    (completions : list Candidate) : list json :=
  match completions with
  | [] => _completions
  | completion :: rest =>
      let _completion := completion_entry self completion in
      if already_have _completions _completion
      then completions_loop self _completions rest
      else completions_loop self (_completions ++ [_completion])%list rest
  end.

Definition response (identifier : json) (results : list json) : json :=
  JObj [("id", identifier); ("results", JArr results)].

Definition _serialize_completions (env : Env) (self : State) (script : Script)
    (identifier prefix : json) : result string :=
  sigs <- _get_call_signatures env self script ;;
  _completions <- arguments_loop self prefix sigs ;;
  completions <-
    except_KeyError (complete (jedi env) (settings self) script) (Ok []) ;;
  Ok (Json.dumps (response identifier (completions_loop self _completions completions))).

(** The [for ... else] of [_serialize_methods] that finds [instance]. *)
Fixpoint find_instance (completions : list Candidate) : result string :=
  match completions with
  | [] => Ok "self.__class__"
  | completion :: rest =>
      if String.eqb (name completion) "__autocomplete_python"
      then match parent completion with
           | Some p => Ok (scope_name p)
           | None => Raise AttributeError
           end
      else find_instance rest
  end.

Definition method_params (completion : Candidate) : list json :=
  match params completion with
  | Some ps =>
      map JStr (filter Py.ARGUMENT_RE_match (map param_description ps))
  | None => []
  end.

Fixpoint methods_loop (instance : string) (completions : list Candidate)
  : result (list json) :=
  match completions with
  | [] => Ok []
  | completion :: rest =>
      match parent completion with
      | None => Raise AttributeError
      | Some p =>
          _methods <- methods_loop instance rest ;;
          if String.eqb (scope_type p) "class"
          then Ok (JObj [("parent", JStr (scope_name p));
                         ("instance", JStr instance);
                         ("name", JStr (name completion));
                         ("params", JArr (method_params completion));
                         ("moduleName", JStr (module_name completion));
                         ("fileName", Json.of_option (module_path completion));
                         ("line", JInt (line completion));
                         ("column", JInt (column completion))] :: _methods)
          else Ok _methods
      end
  end.

Definition _serialize_methods (env : Env) (self : State) (script : Script)
    (identifier prefix : json) : result pyobj :=
  match completions (jedi env) (settings self) script with
  | Raise KeyError => Ok (PyList [])
  | Raise e => Raise e
  | Ok completions =>
      instance <- find_instance completions ;;
      _methods <- methods_loop instance completions ;;
      Ok (PyStr (Json.dumps (response identifier _methods)))
  end.

(** The loop of [_serialize_arguments]: [seen], [arguments] and [i] are its
    variables. *)
Fixpoint snippet_arguments (self : State) (seen arguments : list string) (i : Z)
    (sigs : list (Candidate * string * option string)) : list string :=
  match sigs with
  | [] => arguments
  | (_, name, value) :: rest =>
      if negb (has_value value) then
        let arg := "${" ++ Py.str_of_Z i ++ ":" ++ name ++ "}" in
        if Py.mem name seen
        then snippet_arguments self seen arguments (i + 1) rest
        else snippet_arguments self (name :: seen) (arguments ++ [arg])%list (i + 1) rest
      else if Json.eq_str (use_snippets self) "all" then
        let arg := name ++ "=${" ++ Py.str_of_Z i ++ ":" ++ value_text value ++ "}" in
        if Py.mem name seen
        then snippet_arguments self seen arguments (i + 1) rest
        else snippet_arguments self (name :: seen) (arguments ++ [arg])%list (i + 1) rest
      else snippet_arguments self seen arguments i rest
  end.

Definition _serialize_arguments (env : Env) (self : State) (script : Script)
    (identifier : json) : result string :=
  sigs <- _get_call_signatures env self script ;;
  let snippet := Py.join ", " (snippet_arguments self [] [] 1 sigs) ++ "$0" in
  Ok (Json.dumps (JObj [("id", identifier); ("results", JArr []);
                        ("arguments", JStr snippet)])).

(** The loop of [_top_definition] over [definition.goto_assignments()];
    [recurse] is the recursive call. *)
Fixpoint top_definition_loop (env : Env) (recurse : Candidate -> result Candidate)
    (definition : Candidate) (ds : list Candidate) : result Candidate :=
  match ds with
  | [] => Ok definition
  | d :: ds' =>
      if name_eq (jedi env) d definition
      then top_definition_loop env recurse definition ds'
      else if String.eqb (type d) "import" then recurse d
      else Ok d
  end.

(** [_top_definition] with [depth] nested calls still allowed: at depth 0
    the interpreter raises [RecursionError]. *)
Fixpoint _top_definition (env : Env) (depth : nat) (definition : Candidate)
  : result Candidate :=
  match depth with
  | O => Raise RecursionError
  | S depth' =>
      ds <- name_goto_assignments (jedi env) definition ;;
      top_definition_loop env (_top_definition env depth') definition ds
  end.

Definition definition_entry (definition : Candidate) : json :=
  JObj [("text", JStr (name definition));
        ("type", JStr (_get_definition_type definition));
        ("fileName", Json.of_option (module_path definition));
        ("line", JInt (line definition - 1));
        ("column", JInt (column definition))].

Fixpoint definitions_loop (env : Env) (definitions : list Candidate)
  : result (list json) :=
  match definitions with
  | [] => Ok []
  | definition :: rest =>
      if has_path (module_path definition) then
        definition <-
          (if String.eqb (type definition) "import"
           then _top_definition env (recursion_limit env) definition
           else Ok definition) ;;
        if negb (has_path (module_path definition)) then definitions_loop env rest
        else
          _definitions <- definitions_loop env rest ;;
          Ok (definition_entry definition :: _definitions)
      else definitions_loop env rest
  end.

Definition _serialize_definitions (env : Env) (definitions : list Candidate)
    (identifier : json) : result string :=
  _definitions <- definitions_loop env definitions ;;
  Ok (Json.dumps (response identifier _definitions)).

Definition tooltip_description (definition : Candidate) : string :=
  let description :=
    match docstring definition with
    | Some d => Py.strip d
    | None => EmptyString
    end in
  if negb (Py.nonempty description) then _additional_info definition
  else description.

Definition tooltip_entry (definition : Candidate) : json :=
  JObj [("text", JStr (name definition));
        ("type", JStr (_get_definition_type definition));
        ("fileName", Json.of_option (module_path definition));
        ("description", JStr (tooltip_description definition));
        ("line", JInt (line definition - 1));
        ("column", JInt (column definition))].

Fixpoint tooltip_loop (env : Env) (definitions : list Candidate)
  : result (list json) :=
  match definitions with
  | [] => Ok []
  | definition :: rest =>
      if has_path (module_path definition) then
        definition <-
          (if String.eqb (type definition) "import"
           then _top_definition env (recursion_limit env) definition
           else Ok definition) ;;
        if negb (has_path (module_path definition)) then tooltip_loop env rest
        else Ok [tooltip_entry definition]
      else tooltip_loop env rest
  end.

Definition _serialize_tooltip (env : Env) (definitions : list Candidate)
    (identifier : json) : result string :=
  _definitions <- tooltip_loop env definitions ;;
  Ok (Json.dumps (response identifier _definitions)).

Definition usage_entry (usage : Candidate) : json :=
  JObj [("name", JStr (name usage));
        ("moduleName", JStr (module_name usage));
        ("fileName", Json.of_option (module_path usage));
        ("line", JInt (line usage));
        ("column", JInt (column usage))].

Definition _serialize_usages (usages : list Candidate) (identifier : json) : string :=
  Json.dumps (response identifier (map usage_entry usages)).

(** [_get_top_level_module]: every recursive call is on a strictly shorter
    path, so [fuel] starts at the length of the path. *)
Fixpoint top_level_module_from (env : Env) (fuel : nat) (path : string) : string :=
  let _path := OsPath.split_head path in
  match fuel with
  | O => path
  | S fuel' =>
      if negb (String.eqb _path path)
         && isfile env (OsPath.join _path "__init__.py")
      then top_level_module_from env fuel' _path
      else path
  end.

Definition _get_top_level_module (env : Env) (path : string) : string :=
  top_level_module_from env (String.length path) path.

Definition _deserialize (env : Env) (request : string) : result json :=
  match json_loads env request with
  | Some r => Ok r
  | None => Raise ValueError
  end.

(** [x in sys.path] for a decoded value [x]: only a [str] can be there. *)
Definition in_paths (x : json) (paths : list string) : bool :=
  match x with
  | JStr s => Py.mem s paths
  | _ => false
  end.

Fixpoint chars (s : string) : list json :=
  match s with
  | EmptyString => []
  | String c s' => JStr (String c EmptyString) :: chars s'
  end.

(** The items a [for] loop draws from a decoded value. *)
Definition iterate (j : json) : result (list json) :=
  match j with
  | JArr l => Ok l
  | JStr s => Ok (chars s)
  | JObj kvs => Ok (map (fun kv => JStr (fst kv)) kvs)
  | _ => Raise TypeError
  end.

(** The loop of [_set_request_config] over [extraPaths]. *)
Fixpoint extra_paths_loop (paths : list json) (st : State) : State :=
  match paths with
  | [] => st
  | path :: rest =>
      if Json.truthy path && negb (in_paths path (deref st (sys_path st)))
      then extra_paths_loop rest (set_extra_paths (extra_paths st ++ [path])%list st)
      else extra_paths_loop rest st
  end.

Definition _set_request_config (config : json) : M unit :=
  _ <~ modify (fun st => set_sys_path (default_sys_path st) st) ;;
  match config with
  | JObj c =>
      _ <~ modify (set_config (Json.get c "useSnippets" JNull)
                              (Json.get c "showDescriptions" (JBool true))
                              (Json.get c "fuzzyMatcher" (JBool false))
                              (Json.get c "caseInsensitiveCompletion" (JBool true))) ;;
      _ <~ modify (set_extra_paths []) ;;
      paths <~ lift (fun _ => iterate (Json.get c "extraPaths" (JArr []))) ;;
      modify (extra_paths_loop paths)
  | _ => raise AttributeError
  end.

(** [sys.path.insert(0, path)]: the list object [sys.path] refers to is
    changed in place. *)
Definition sys_path_insert0 (path : string) (st : State) : State :=
  set_heap (update_nth (sys_path st) (path :: deref st (sys_path st)) (heap st)) st.

Definition _write_response (response : pyobj) : M unit :=
  _ <~ modify (fun st => set_streams Stdout (sys_stderr st) st) ;;
  match response with
  | PyStr s => modify (fun st => write (sys_stdout st) (s ++ newline) st)
  | PyList _ => raise TypeError
  end.

(** [request[k]]. *)
Definition getitem (r : list (string * json)) (k : string) : result json :=
  match Json.lookup k r with
  | Some v => Ok v
  | None => Raise KeyError
  end.

(** [line + 1] for a decoded [line]. *)
Definition plus_one (line : json) : result Z :=
  match line with
  | JInt z => Ok (z + 1)%Z
  | JBool b => Ok (Z.b2z b + 1)%Z
  | _ => Raise TypeError
  end.

(** Lines 330 to 345 of [_process_request]: the request is decoded, its
    config applied, the package root put on [sys.path] and the script
    built. *)
Definition open_script (env : Env) (request : string)
  : M (list (string * json) * Script) :=
  request <~ lift (fun _ => _deserialize env request) ;;
  match request with
  | JObj r =>
      _ <~ _set_request_config (Json.get r "config" (JObj [])) ;;
      path <~ lift (fun _ =>
                match Json.get r "path" (JStr EmptyString) with
                | JStr p => Ok (_get_top_level_module env p)
                | _ => Raise TypeError
                end) ;;
      _ <~ modify (fun st =>
             if Py.mem path (deref st (sys_path st)) then st
             else sys_path_insert0 path st) ;;
      source <~ lift (fun _ => getitem r "source") ;;
      _ <~ lift (fun st =>
             new_Script (jedi env) (settings st) source
               (Json.get r "path" (JStr EmptyString)) path (extra_paths st)) ;;
      line <~ lift (fun _ => l <- getitem r "line" ;; plus_one l) ;;
      column <~ lift (fun _ => getitem r "column") ;;
      extra <~ lift (fun st => Ok (extra_paths st)) ;;
      ret (r, {| code := source;
                 script_path := Json.get r "path" (JStr EmptyString);
                 project_path := path;
                 added_sys_path := extra;
                 _pos := (line, column) |})
  | _ => raise AttributeError
  end.

(** Lines 349 to 368 of [_process_request]: the branch on [lookup]. *)
Definition dispatch (env : Env) (r : list (string * json)) (script : Script)
  : M unit :=
  let lookup := Json.get r "lookup" (JStr "completions") in
  if Json.eq_str lookup "definitions" then
    response <~ lift (fun st =>
                  definitions <- goto_assignments (jedi env) (settings st) script ;;
                  identifier <- getitem r "id" ;;
                  s <- _serialize_definitions env definitions identifier ;;
                  Ok (PyStr s)) ;;
    _write_response response
  else if Json.eq_str lookup "tooltip" then
    response <~ lift (fun st =>
                  definitions <- goto_assignments (jedi env) (settings st) script ;;
                  identifier <- getitem r "id" ;;
                  s <- _serialize_tooltip env definitions identifier ;;
                  Ok (PyStr s)) ;;
    _write_response response
  else if Json.eq_str lookup "arguments" then
    response <~ lift (fun st =>
                  identifier <- getitem r "id" ;;
                  s <- _serialize_arguments env st script identifier ;;
                  Ok (PyStr s)) ;;
    _write_response response
  else if Json.eq_str lookup "usages" then
    response <~ lift (fun st =>
                  found <- usages (jedi env) (settings st) script ;;
                  identifier <- getitem r "id" ;;
                  Ok (PyStr (_serialize_usages found identifier))) ;;
    _write_response response
  else if Json.eq_str lookup "methods" then
    response <~ lift (fun st =>
                  identifier <- getitem r "id" ;;
                  _serialize_methods env st script identifier
                    (Json.get r "prefix" (JStr EmptyString))) ;;
    _write_response response
  else
    response <~ lift (fun st =>
                  identifier <- getitem r "id" ;;
                  s <- _serialize_completions env st script identifier
                         (Json.get r "prefix" (JStr EmptyString)) ;;
                  Ok (PyStr s)) ;;
    _write_response response.

Definition _process_request (env : Env) (request : string) : M unit :=
  opened <~ open_script env request ;;
  dispatch env (fst opened) (snd opened).

(** [watch] on the lines the input still holds, each as [readline] returns
    it; at the end of the input [readline] returns the empty string.  The
    result is the input left unread and the final state. *)
Fixpoint watch (env : Env) (_input : list string) (st : State)
  : list string * State :=
  let st := set_streams Devnull Devnull st in
  match _input with
  | [] => ([], st)
  | request :: rest =>
      if negb (Py.nonempty request) then (rest, st)
      else
        match _process_request env request st with
        | (Ok _, st') => watch env rest st'
        | (Raise e, st') =>
            let st' := set_streams (sys_stdout st') Stderr st' in
            watch env rest (write (sys_stderr st') (format_exc env e ++ newline) st')
        end
  end.

(** ** The readings of the specification that the code is compared with *)

(** The first entry of [ds] that is not [definition] itself: the candidate
    [_top_definition] goes on with. *)
Definition first_other (env : Env) (definition : Candidate) (ds : list Candidate)
  : option Candidate :=
  find (fun d => negb (name_eq (jedi env) d definition)) ds.

(** [resolves env n d r]: following the import chain from [d] through [n]
    import candidates ends at [r], which is a definition that is not an
    import, or the last candidate when the chain is exhausted. *)
Inductive resolves (env : Env) : nat -> Candidate -> Candidate -> Prop :=
| resolves_exhausted d ds :
    name_goto_assignments (jedi env) d = Ok ds ->
    first_other env d ds = None ->
    resolves env 0 d d
| resolves_origin d ds r :
    name_goto_assignments (jedi env) d = Ok ds ->
    first_other env d ds = Some r ->
    type r <> "import" ->
    resolves env 0 d r
| resolves_import n d ds d' r :
    name_goto_assignments (jedi env) d = Ok ds ->
    first_other env d ds = Some d' ->
    type d' = "import" ->
    resolves env n d' r ->
    resolves env (S n) d r.

(** The candidate a definitions or tooltip entry is built from: [d] with
    its import chain resolved, when both have a module path. *)
Definition resolved (env : Env) (d : Candidate) : result (option Candidate) :=
  if has_path (module_path d) then
    d' <- (if String.eqb (type d) "import"
           then _top_definition env (recursion_limit env) d
           else Ok d) ;;
    Ok (if has_path (module_path d') then Some d' else None)
  else Ok None.

(** The tooltip choice as the specification words it: the first resolved
    candidate whose description is not empty. *)
Fixpoint spec_tooltip_loop (env : Env) (definitions : list Candidate)
  : result (list json) :=
  match definitions with
  | [] => Ok []
  | d :: rest =>
      r <- resolved env d ;;
      match r with
      | Some d' =>
          if Py.nonempty (tooltip_description d') then Ok [tooltip_entry d']
          else spec_tooltip_loop env rest
      | None => spec_tooltip_loop env rest
      end
  end.

(** The kind tag as the specification orders its cases: constant first. *)
Definition spec_definition_type (definition : Candidate) : string :=
  if String.eqb (type definition) "statement" && Py.isupper (name definition)
  then "constant"
  else if negb (Py.mem (type definition) ["import"; "keyword"])
          && in_builtin_module definition
  then "builtin"
  else dict_get basic_types (type definition) (type definition).

(** The collision test as the specification words it: the text of the
    name-candidate, split at [=], against the text of the argument-candidate. *)
Definition spec_collide (argument_c name_c : json) : bool :=
  String.eqb (Py.split_head "=" (entry_text name_c)) (entry_text argument_c).

(** The collision test of the code between two entries. *)
Definition collide (emitted name_c : json) : bool :=
  String.eqb (Py.split_head "=" (entry_text emitted)) (entry_text name_c).


(** The [description] field of an entry. *)
Definition entry_description (e : json) : option json :=
  match e with
  | JObj kvs => Json.lookup "description" kvs
  | _ => None
  end.

(** The [arguments] response with snippet [snippet]. *)
Definition arguments_response (identifier : json) (snippet : string) : json :=
  JObj [("id", identifier); ("results", JArr []); ("arguments", JStr snippet)].

(** No character of [s] is a newline. *)
Definition single_line (s : string) : Prop :=
  Py.forall_chars (fun c => negb (Ascii.eqb c "010")) s = true.

(** One chunk on the output stream that is a response line: the encoding of
    a JSON object, with no newline in it, then a newline. *)
Definition response_line (chunk : string) : Prop :=
  exists fields,
    chunk = Json.dumps (JObj fields) ++ newline
    /\ single_line (Json.dumps (JObj fields)).

(** The lookups with a branch of their own in [_process_request]. *)
Definition named_lookups : list string :=
  ["definitions"; "tooltip"; "arguments"; "usages"; "methods"].

(** The two cases [_get_definition_type] tests before the table. *)
Definition builtin_case (d : Candidate) : Prop :=
  type d <> "import" /\ type d <> "keyword" /\ in_builtin_module d = true.

Definition constant_case (d : Candidate) : Prop :=
  type d = "statement" /\ Py.isupper (name d) = true.

(** The state after [_write_response] wrote [text]. *)
Definition answered (text : string) (st : State) : State :=
  write Stdout (text ++ newline) (set_streams Stdout (sys_stderr st) st).

(** The last branch of [_process_request], the one of the completions
    lookup. *)
Definition completions_branch (env : Env) (r : list (string * json))
    (script : Script) : M unit :=
  response <~ lift (fun st =>
                identifier <- getitem r "id" ;;
                s <- _serialize_completions env st script identifier
                       (Json.get r "prefix" (JStr EmptyString)) ;;
                Ok (PyStr s)) ;;
  _write_response response.

(** Nothing was written between two states. *)
Definition same_output (st st' : State) : Prop :=
  stdout_data st' = stdout_data st /\ stderr_data st' = stderr_data st.

(** A computation that writes nothing, whether it returns or raises. *)
Definition silent {A : Type} (c : M A) : Prop :=
  forall st, same_output st (snd (c st)).

(** What a serializer returns is the encoding of a JSON object, or the
    list of the methods lookup. *)
Definition response_object (o : pyobj) : Prop :=
  match o with
  | PyStr s => exists fields, s = Json.dumps (JObj fields)
  | PyList _ => True
  end.

(** ** Sample engines and requests *)

Module Sample.

Definition candidate (n t : string) (path : option string) (ln col : Z)
    (doc : option string) : Candidate :=
  {| name := n; type := t; module_path := path; module_name := "m";
     line := ln; column := col; in_builtin_module := false; docstring := doc;
     params := None; _definition := None; parent := None |}.

Definition option_eqb (a b : option string) : bool :=
  match a, b with
  | Some x, Some y => String.eqb x y
  | None, None => true
  | _, _ => false
  end.

(** Equality as the engine has it: same position, module and name. *)
Definition same_name (a b : Candidate) : bool :=
  (line a =? line b)%Z && (column a =? column b)%Z
  && option_eqb (module_path a) (module_path b)
  && String.eqb (name a) (name b).

(** An engine with no candidate for any query. *)
Definition quiet : Jedi :=
  {| new_Script := fun _ _ _ _ _ => Ok tt;
     get_signatures := fun _ _ => Ok [];
     complete := fun _ _ => Ok [];
     completions := fun _ _ => Ok [];
     goto_assignments := fun _ _ => Ok [];
     usages := fun _ _ => Ok [];
     name_goto_assignments := fun _ => Ok [];
     name_eq := same_name |}.

(** An engine whose every query on a script fails on a missing key. *)
Definition stale : Jedi :=
  {| new_Script := fun _ _ _ _ _ => Ok tt;
     get_signatures := fun _ _ => Raise KeyError;
     complete := fun _ _ => Raise KeyError;
     completions := fun _ _ => Raise KeyError;
     goto_assignments := fun _ _ => Raise KeyError;
     usages := fun _ _ => Raise KeyError;
     name_goto_assignments := fun _ => Raise KeyError;
     name_eq := same_name |}.

(** A decoder for the documents of [known]: a line decodes when it is the
    encoding of one of them, with or without the final newline. *)
Definition decode_known (known : list json) (s : string) : option json :=
  find (fun j => String.eqb s (Json.dumps j ++ newline) || String.eqb s (Json.dumps j))
       known.

Definition exn_name (e : exn) : string :=
  match e with
  | KeyError => "KeyError"
  | ValueError => "ValueError"
  | TypeError => "TypeError"
  | AttributeError => "AttributeError"
  | RecursionError => "RecursionError"
  | EngineError what => what
  end.

Definition env_of (engine : Jedi) (known : list json) : Env :=
  {| jedi := engine;
     json_loads := decode_known known;
     isfile := fun _ => false;
     format_exc := fun e => "Traceback (most recent call last): " ++ exn_name e;
     recursion_limit := 1000 |}.

Definition boot : list string := ["/usr/lib/python3"].

Definition request (identifier : Z) (lookup path : string) (more : list (string * json))
  : json :=
  JObj ([("id", JInt identifier); ("lookup", JStr lookup); ("source", JStr "f(");
         ("path", JStr path); ("line", JInt 0); ("column", JInt 2)] ++ more)%list.

(** Request A brings an extra path and a file of its own project; request
    B has no config. *)
Definition request_A : json :=
  request 1 "completions" "/proj/a/mod.py"
    [("config", JObj [("extraPaths", JArr [JStr "/x"])])].

Definition request_B : json := request 2 "completions" "/other/b.py" [].

Definition line_of (j : json) : string := Json.dumps j ++ newline.

Definition a_script : Script :=
  {| code := JStr "f("; script_path := JStr EmptyString; project_path := EmptyString;
     added_sys_path := []; _pos := (1%Z, JInt 2) |}.

(** Two imports that point at each other. *)
Definition imp_a : Candidate := candidate "a" "import" (Some "/p/a.py") 1 0 None.
Definition imp_b : Candidate := candidate "b" "import" (Some "/p/b.py") 1 0 None.
Definition origin_c : Candidate := candidate "c" "function" (Some "/p/c.py") 7 4 None.

Definition cyclic : Jedi :=
  {| new_Script := fun _ _ _ _ _ => Ok tt;
     get_signatures := fun _ _ => Ok [];
     complete := fun _ _ => Ok [];
     completions := fun _ _ => Ok [];
     goto_assignments := fun _ _ => Ok [imp_a];
     usages := fun _ _ => Ok [];
     name_goto_assignments := fun d =>
       if String.eqb (name d) "a" then Ok [imp_b]
       else if String.eqb (name d) "b" then Ok [imp_a]
       else Ok [];
     name_eq := same_name |}.

(** [a] imports [b], which lists itself and then imports [c], a function. *)
Definition nested : Jedi :=
  {| new_Script := fun _ _ _ _ _ => Ok tt;
     get_signatures := fun _ _ => Ok [];
     complete := fun _ _ => Ok [];
     completions := fun _ _ => Ok [];
     goto_assignments := fun _ _ => Ok [imp_a];
     usages := fun _ _ => Ok [];
     name_goto_assignments := fun d =>
       if String.eqb (name d) "a" then Ok [imp_b]
       else if String.eqb (name d) "b" then Ok [imp_b; origin_c]
       else Ok [];
     name_eq := same_name |}.

Definition nested_rank (d : Candidate) : nat :=
  if same_name imp_b d then 1
  else if String.eqb (name d) "a" then 2
  else if String.eqb (name d) "b" then 2
  else 0.

(** A call [f(count=5)] under the cursor, and a name [count] in scope. *)
Definition sig_f : Candidate :=
  {| name := "f"; type := "function"; module_path := Some "/p/f.py";
     module_name := "f"; line := 3; column := 4; in_builtin_module := false;
     docstring := Some "f(count=5)";
     params := Some [{| param_name := "count"; param_description := "param count=5" |}];
     _definition := None; parent := None |}.

Definition name_count : Candidate :=
  candidate "count" "statement" (Some "/p/f.py") 1 0 (Some "count = 0").

Definition calling : Jedi :=
  {| new_Script := fun _ _ _ _ _ => Ok tt;
     get_signatures := fun _ _ => Ok [sig_f];
     complete := fun _ _ => Ok [name_count];
     completions := fun _ _ => Ok [name_count];
     goto_assignments := fun _ _ => Ok [];
     usages := fun _ _ => Ok [];
     name_goto_assignments := fun _ => Ok [];
     name_eq := same_name |}.

(** A function without doc text, then one with doc text, and a constant of
    a built-in module. *)
Definition bare_def : Candidate :=
  candidate "helper" "function" (Some "/p/h.py") 10 4 (Some "  ").
Definition documented_def : Candidate :=
  candidate "helper" "function" (Some "/p/g.py") 20 0 (Some "Help text.").
Definition builtin_constant : Candidate :=
  {| name := "MAXSIZE"; type := "statement"; module_path := None;
     module_name := "sys"; line := 1; column := 0; in_builtin_module := true;
     docstring := None; params := None; _definition := None; parent := None |}.

End Sample.

(** ** One turn of the loop, and an engine that never misses a key *)

(** One turn of the loop of [watch] on a line that is not the empty read:
    the request is handled with both streams on the null device, and an
    exception it raises is written to the real [stderr]; the result is the
    state the next turn starts from. *)
Definition turn (env : Env) (st : State) (request : string) : State :=
  match _process_request env request (set_streams Devnull Devnull st) with
  | (Ok _, st') => st'
  | (Raise e, st') =>
      write Stderr (format_exc env e ++ newline)
        (set_streams (sys_stdout st') Stderr st')
  end.

(** The answer of a query with a missing-key failure read as no candidate. *)
Definition soothe (c : result (list Candidate)) : result (list Candidate) :=
  except_KeyError c (Ok []).

(** The engine whose signature query and completion query answer no
    candidate where those of [j] fail on a missing key; the rest is [j]. *)
Definition soothed (j : Jedi) : Jedi :=
  {| new_Script := new_Script j;
     get_signatures := fun s x => soothe (get_signatures j s x);
     complete := fun s x => soothe (complete j s x);
     completions := completions j;
     goto_assignments := goto_assignments j;
     usages := usages j;
     name_goto_assignments := name_goto_assignments j;
     name_eq := name_eq j |}.

Definition with_engine (env : Env) (j : Jedi) : Env :=
  {| jedi := j;
     json_loads := json_loads env;
     isfile := isfile env;
     format_exc := format_exc env;
     recursion_limit := recursion_limit env |}.

(** ** Notions used by the further properties *)

(** A field of an entry. *)
Definition entry_field (k : string) (e : json) : option json :=
  match e with
  | JObj kvs => Json.lookup k kvs
  | _ => None
  end.

(** No character of [s] is [c]. *)
Definition free_of (c : ascii) (s : string) : Prop :=
  Py.forall_chars (fun x => negb (Ascii.eqb x c)) s = true.

(** The name the engine gives the marker of an instance scope. *)
Definition sentinel : string := "__autocomplete_python".

(** The completion has a parent scope, and it is a class. *)
Definition class_member (c : Candidate) : bool :=
  match parent c with
  | Some p => String.eqb (scope_type p) "class"
  | None => false
  end.

(** The test of [_set_request_config] on one extra path, against the
    search path [baseline]. *)
Definition wanted_extra_path (baseline : list string) (p : json) : bool :=
  Json.truthy p && negb (in_paths p baseline).

(** The test of [_serialize_completions] on the name of a parameter, with
    the fuzzy matcher off. *)
Definition matches_prefix (p : string) (sig : Candidate * string * option string)
  : bool :=
  Py.startswith (Py.lower (snd (fst sig))) (Py.lower p).

Definition sig_entry (self : State) (sig : Candidate * string * option string)
  : json :=
  argument_entry self (fst (fst sig)) (snd (fst sig)) (snd sig).

Definition sig_name (sig : Candidate * string * option string) : string :=
  snd (fst sig).

(** The parameter counts in [_serialize_arguments]: it has no default, or
    the snippets are asked for all. *)
Definition counted (self : State) (sig : Candidate * string * option string)
  : bool :=
  negb (has_value (snd sig)) || Json.eq_str (use_snippets self) "all".

(** The four flags a request config sets. *)
Definition flags (st : State) : json * json * json * json :=
  (use_snippets st, show_doc_strings st, fuzzy_matcher st,
   case_insensitive_completion st).

(** What is known of a tuple [_get_call_signatures] returns. *)
Definition well_formed_tuple (sig : Candidate * string * option string) : Prop :=
  Py.startswith (sig_name sig) "*" = false
  /\ exists ps param,
       params (fst (fst sig)) = Some ps /\ In param ps
       /\ Py.nonempty (param_name param) = true
       /\ Py.WORD_RE_match (param_name param) = true
       /\ match snd sig with
          | Some v =>
              Py.re_sub_delete "param " (param_description param)
              = sig_name sig ++ "=" ++ v
              /\ free_of "=" (sig_name sig) /\ free_of "=" v
          | None => Py.re_sub_delete "param " (param_description param) = sig_name sig
          end.

(** ** More sample data *)

Module More.

(** A file system with the packages [/w/pkg] and [/w/pkg/sub]. *)
Definition packaged (p : string) : bool :=
  String.eqb p "/w/pkg/__init__.py" || String.eqb p "/w/pkg/sub/__init__.py".

Definition env_packaged : Env :=
  {| jedi := Sample.quiet;
     json_loads := Sample.decode_known [];
     isfile := packaged;
     format_exc := fun e => Sample.exn_name e;
     recursion_limit := 1000 |}.

Definition method (n : string) (scope kind : string) : Candidate :=
  {| name := n; type := "function"; module_path := Some "/w/k.py";
     module_name := "k"; line := 12; column := 4; in_builtin_module := false;
     docstring := None;
     params := Some [{| param_name := "self"; param_description := "param self" |};
                     {| param_name := "n"; param_description := "param n=1" |}];
     _definition := None;
     parent := Some {| scope_name := scope; scope_type := kind |} |}.

Definition init_sig : Candidate :=
  {| name := "g"; type := "function"; module_path := Some "/w/g.py";
     module_name := "g"; line := 2; column := 0; in_builtin_module := false;
     docstring := None;
     params := Some [{| param_name := "self"; param_description := "param self" |};
                     {| param_name := "size"; param_description := "param size" |};
                     {| param_name := "color"; param_description := "param color='red'" |};
                     {| param_name := "args"; param_description := "param *args" |}];
     _definition := None; parent := None |}.

Definition signing : Jedi :=
  {| new_Script := fun _ _ _ _ _ => Ok tt;
     get_signatures := fun _ _ => Ok [init_sig];
     complete := fun _ _ => Ok [];
     completions := fun _ _ => Ok [method "run" "Job" "class"];
     goto_assignments := fun _ _ => Ok [Sample.origin_c];
     usages := fun _ _ => Ok [Sample.origin_c];
     name_goto_assignments := fun _ => Ok [];
     name_eq := Sample.same_name |}.

Definition failing (e : exn) : Jedi :=
  {| new_Script := fun _ _ _ _ _ => Ok tt;
     get_signatures := fun _ _ => Raise e;
     complete := fun _ _ => Raise e;
     completions := fun _ _ => Raise e;
     goto_assignments := fun _ _ => Raise e;
     usages := fun _ _ => Raise e;
     name_goto_assignments := fun _ => Raise e;
     name_eq := Sample.same_name |}.

Definition ready : State := snd (_set_request_config (JObj []) (__init__ Sample.boot)).

(** An engine that knows the call under the cursor and fails on a missing
    key in the completion query. *)
Definition half_stale : Jedi :=
  {| new_Script := fun _ _ _ _ _ => Ok tt;
     get_signatures := fun _ _ => Ok [Sample.sig_f];
     complete := fun _ _ => Raise KeyError;
     completions := fun _ _ => Raise KeyError;
     goto_assignments := fun _ _ => Raise KeyError;
     usages := fun _ _ => Raise KeyError;
     name_goto_assignments := fun _ => Raise KeyError;
     name_eq := Sample.same_name |}.

Definition wanted_definitions : json := Sample.request 8 "definitions" "/p.py" [].
Definition wanted_arguments : json := Sample.request 9 "arguments" "/p.py" [].

End More.

(** * Properties *)

(** ** Shared lemmas *)

Example dumps_sample :
  Json.dumps (JObj [("id", JInt 7); ("results", JArr [JStr "a"; JNull])])
  = "{" ++ Json.quote "id" ++ ": 7, " ++ Json.quote "results" ++ ": ["
    ++ Json.quote "a" ++ ", null]}".
Proof. reflexivity. Qed.

Lemma rbind_ok {A B : Type} (c : result A) (k : A -> result B) (b : B) :
  rbind c k = Ok b -> exists a, c = Ok a /\ k a = Ok b.
Proof.
  destruct c as [a|e]; simpl; intros H; [exists a; auto | discriminate].
Qed.

Lemma resolved_some env d r :
  resolved env d = Ok (Some r) -> has_path (module_path r) = true.
Proof.
  unfold resolved. destruct (has_path (module_path d)); [|discriminate].
  intros H. apply rbind_ok in H. destruct H as [d' [_ H]].
  destruct (has_path (module_path d')) eqn:E; congruence.
Qed.

(** One turn of the loops of [_serialize_definitions] and of
    [_serialize_tooltip], in terms of [resolved]. *)
Lemma definitions_loop_cons env d rest :
  definitions_loop env (d :: rest) =
  rbind (resolved env d) (fun r =>
    match r with
    | Some d' => rbind (definitions_loop env rest)
                   (fun l => Ok (definition_entry d' :: l))
    | None => definitions_loop env rest
    end).
Proof.
  simpl. unfold resolved. destruct (has_path (module_path d)); [|reflexivity].
  destruct (if String.eqb (type d) "import"
            then _top_definition env (recursion_limit env) d else Ok d) as [d'|e];
    simpl; [|reflexivity].
  destruct (has_path (module_path d')); reflexivity.
Qed.

Lemma tooltip_loop_cons env d rest :
  tooltip_loop env (d :: rest) =
  rbind (resolved env d) (fun r =>
    match r with
    | Some d' => Ok [tooltip_entry d']
    | None => tooltip_loop env rest
    end).
Proof.
  simpl. unfold resolved. destruct (has_path (module_path d)); [|reflexivity].
  destruct (if String.eqb (type d) "import"
            then _top_definition env (recursion_limit env) d else Ok d) as [d'|e];
    simpl; [|reflexivity].
  destruct (has_path (module_path d')); reflexivity.
Qed.


(** ** The path resolver returns

    The head [os.path.split] gives is a prefix of the path, so each
    recursive call of [_get_top_level_module] is on a shorter path and the
    length of the path is fuel enough. *)

Lemma prefix_length a : forall b,
  prefix a b = true ->
  (String.length a <= String.length b)%nat
  /\ (String.length a = String.length b -> a = b).
Proof.
  induction a as [|c a IH]; intros [|d b]; simpl; intros H; try discriminate.
  - split; [lia | reflexivity].
  - split; [lia | discriminate].
  - destruct (ascii_dec c d) as [->|]; [|discriminate].
    destruct (IH b H) as [Hle Heq]. split; [lia|].
    intros E. f_equal. apply Heq. lia.
Qed.

Lemma prefix_trans a : forall b c,
  prefix a b = true -> prefix b c = true -> prefix a c = true.
Proof.
  induction a as [|x a IH]; intros [|y b] [|z c]; simpl; intros H1 H2;
    try discriminate; try reflexivity.
  destruct (ascii_dec x y) as [->|]; [|discriminate].
  destruct (ascii_dec y z) as [->|]; [|discriminate].
  eapply IH; eassumption.
Qed.

Lemma prefix_same a : prefix a a = true.
Proof.
  induction a as [|c a IH]; simpl; [reflexivity|].
  destruct (ascii_dec c c); [exact IH | contradiction].
Qed.

Lemma upto_last_sep_prefix p : prefix (OsPath.upto_last_sep p) p = true.
Proof.
  induction p as [|c p IH]; [reflexivity|].
  cbn [OsPath.upto_last_sep].
  destruct (Py.exists_char OsPath.is_sep (String c p)); [|reflexivity].
  simpl. destruct (ascii_dec c c); [exact IH | contradiction].
Qed.

Lemma rstrip_sep_prefix h : prefix (OsPath.rstrip_sep h) h = true.
Proof.
  induction h as [|c h IH]; [reflexivity|].
  cbn [OsPath.rstrip_sep].
  destruct (OsPath.rstrip_sep h) as [|d r].
  - destruct (OsPath.is_sep c); [reflexivity|].
    simpl. destruct (ascii_dec c c); [exact IH | contradiction].
  - cbn [prefix]. destruct (ascii_dec c c); [exact IH | contradiction].
Qed.

Lemma split_head_shorter p :
  OsPath.split_head p <> p ->
  (String.length (OsPath.split_head p) < String.length p)%nat.
Proof.
  intros Hne.
  assert (Hp : prefix (OsPath.split_head p) p = true).
  { unfold OsPath.split_head.
    destruct (Py.nonempty (OsPath.upto_last_sep p)
              && negb (Py.forall_chars OsPath.is_sep (OsPath.upto_last_sep p))).
    - eapply prefix_trans; [apply rstrip_sep_prefix | apply upto_last_sep_prefix].
    - apply upto_last_sep_prefix. }
  destruct (prefix_length _ _ Hp) as [Hle Heq].
  destruct (Nat.eq_dec (String.length (OsPath.split_head p)) (String.length p)) as [E|E].
  - exfalso. apply Hne, Heq, E.
  - lia.
Qed.

Lemma top_level_module_fuel env : forall fuel path,
  (String.length path <= fuel)%nat ->
  top_level_module_from env (S fuel) path = top_level_module_from env fuel path.
Proof.
  induction fuel as [|fuel IH]; intros path Hlen.
  - destruct path; [reflexivity | simpl in Hlen; lia].
  - change (top_level_module_from env (S (S fuel)) path)
      with (if negb (String.eqb (OsPath.split_head path) path)
               && isfile env (OsPath.join (OsPath.split_head path) "__init__.py")
            then top_level_module_from env (S fuel) (OsPath.split_head path)
            else path).
    change (top_level_module_from env (S fuel) path)
      with (if negb (String.eqb (OsPath.split_head path) path)
               && isfile env (OsPath.join (OsPath.split_head path) "__init__.py")
            then top_level_module_from env fuel (OsPath.split_head path)
            else path).
    destruct (String.eqb_spec (OsPath.split_head path) path) as [E|N];
      [reflexivity|].
    cbn [negb andb].
    destruct (isfile env (OsPath.join (OsPath.split_head path) "__init__.py"));
      [|reflexivity].
    apply IH. pose proof (split_head_shorter path N). lia.
Qed.

(** More fuel than the length of the path changes nothing: the recursion of
    [_get_top_level_module] has ended by then. *)
Lemma get_top_level_module_total env path extra :
  top_level_module_from env (String.length path + extra) path
  = _get_top_level_module env path.
Proof.
  unfold _get_top_level_module. induction extra as [|extra IH].
  - rewrite Nat.add_0_r. reflexivity.
  - rewrite Nat.add_succ_r, top_level_module_fuel by lia. exact IH.
Qed.

(** ** C8: kind classification *)

Lemma builtin_case_test d :
  negb (Py.mem (type d) ["import"; "keyword"]) && in_builtin_module d = true
  <-> builtin_case d.
Proof.
  unfold builtin_case, Py.mem. simpl.
  destruct (String.eqb_spec (type d) "import"), (String.eqb_spec (type d) "keyword"),
    (in_builtin_module d); simpl; intuition congruence.
Qed.

Lemma constant_case_test d :
  Py.mem (type d) ["statement"] && Py.isupper (name d) = true <-> constant_case d.
Proof.
  unfold constant_case, Py.mem. simpl.
  destruct (String.eqb_spec (type d) "statement"), (Py.isupper (name d));
    simpl; intuition congruence.
Qed.

(** C8, as stated, fails: a statement with an all-uppercase name that the
    engine flags as built-in is tagged builtin, not constant. *)
Lemma builtin_checked_before_constant :
  constant_case Sample.builtin_constant
  /\ spec_definition_type Sample.builtin_constant = "constant"
  /\ _get_definition_type Sample.builtin_constant = "builtin"
  /\ _get_definition_type Sample.builtin_constant
     <> spec_definition_type Sample.builtin_constant.
Proof.
  repeat split; try reflexivity. vm_compute. discriminate.
Qed.

(** C8, amended: the kind tag is builtin when the native kind is neither
    import nor keyword and the engine flags the candidate as built-in;
    otherwise constant when the native kind is statement and the name is
    all uppercase; otherwise the native kind mapped through the table
    module to import, instance to variable, statement to value, param to
    variable; otherwise the native kind unchanged. *)
Theorem definition_type_cases (d : Candidate) :
  (builtin_case d -> _get_definition_type d = "builtin")
  /\ (~ builtin_case d -> constant_case d -> _get_definition_type d = "constant")
  /\ (~ builtin_case d -> ~ constant_case d ->
      (type d = "module" -> _get_definition_type d = "import")
      /\ (type d = "instance" -> _get_definition_type d = "variable")
      /\ (type d = "statement" -> _get_definition_type d = "value")
      /\ (type d = "param" -> _get_definition_type d = "variable")
      /\ (~ In (type d) ["module"; "instance"; "statement"; "param"] ->
          _get_definition_type d = type d)).
Proof.
  unfold _get_definition_type.
  pose proof (builtin_case_test d) as Hb. pose proof (constant_case_test d) as Hc.
  destruct (negb (Py.mem (type d) ["import"; "keyword"]) && in_builtin_module d).
  - split; [reflexivity|]. split; intros Hn; exfalso; apply Hn, Hb; reflexivity.
  - split; [intros H; apply Hb in H; discriminate|].
    destruct (Py.mem (type d) ["statement"] && Py.isupper (name d)).
    + split; [reflexivity|]. intros _ Hn. exfalso. apply Hn, Hc. reflexivity.
    + split; [intros _ H; apply Hc in H; discriminate|].
      intros _ _. simpl.
      destruct (String.eqb_spec (type d) "module") as [E|N1].
      { rewrite E. repeat split; intros; try discriminate; try reflexivity.
        exfalso. apply H. simpl. auto. }
      destruct (String.eqb_spec (type d) "instance") as [E|N2].
      { rewrite E. repeat split; intros; try discriminate; try reflexivity.
        exfalso. apply H. simpl. auto. }
      destruct (String.eqb_spec (type d) "statement") as [E|N3].
      { rewrite E. repeat split; intros; try discriminate; try reflexivity.
        exfalso. apply H. simpl. auto. }
      destruct (String.eqb_spec (type d) "param") as [E|N4].
      { rewrite E. repeat split; intros; try discriminate; try reflexivity.
        exfalso. apply H. simpl. auto. }
      repeat split; intros; try contradiction; reflexivity.
Qed.

Lemma definition_type_cases_witness :
  _get_definition_type Sample.builtin_constant = "builtin"
  /\ _get_definition_type Sample.name_count = "value".
Proof.
  split.
  - apply (proj1 (definition_type_cases Sample.builtin_constant)).
    repeat split; discriminate.
  - refine (proj1 (proj2 (proj2 (proj2 (proj2
              (definition_type_cases Sample.name_count)) _ _))) _).
    + intros [_ [_ H]]. discriminate H.
    + intros [_ H]. discriminate H.
    + reflexivity.
Defined.

(** ** C5: line numbers *)

Lemma definitions_loop_entries env defs : forall res,
  definitions_loop env defs = Ok res ->
  Forall (fun e => exists d0 d, In d0 defs /\ resolved env d0 = Ok (Some d)
                                /\ e = definition_entry d) res.
Proof.
  induction defs as [|d0 rest IH]; intros res H.
  - simpl in H. injection H as <-. constructor.
  - rewrite definitions_loop_cons in H.
    apply rbind_ok in H. destruct H as [r [Hr H]].
    destruct r as [d|].
    + apply rbind_ok in H. destruct H as [l [Hl H]]. injection H as <-.
      constructor.
      * exists d0, d. simpl. auto.
      * eapply Forall_impl; [|apply IH, Hl].
        intros e [x [y [Hin Hxy]]]. exists x, y. simpl. auto.
    + eapply Forall_impl; [|apply IH, H].
      intros e [x [y [Hin Hxy]]]. exists x, y. simpl. auto.
Qed.

Lemma tooltip_loop_entries env defs : forall res,
  tooltip_loop env defs = Ok res ->
  res = []
  \/ exists d0 d, In d0 defs /\ resolved env d0 = Ok (Some d)
                  /\ res = [tooltip_entry d].
Proof.
  induction defs as [|d0 rest IH]; intros res H.
  - simpl in H. injection H as <-. auto.
  - rewrite tooltip_loop_cons in H.
    apply rbind_ok in H. destruct H as [r [Hr H]].
    destruct r as [d|].
    + injection H as <-. right. exists d0, d. simpl. auto.
    + destruct (IH _ H) as [E|[x [y [Hin Hxy]]]]; [auto|].
      right. exists x, y. simpl. auto.
Qed.





(** ** C2: serializing no candidate *)

(** C2, as stated, fails: with no candidate the snippet of the arguments
    lookup is the final tab stop, not the empty string. *)
Lemma empty_arguments_snippet_is_tab_stop :
  _serialize_arguments (Sample.env_of Sample.quiet []) (__init__ Sample.boot)
    Sample.a_script (JInt 1)
  = Ok (Json.dumps (arguments_response (JInt 1) "$0"))
  /\ _serialize_arguments (Sample.env_of Sample.quiet []) (__init__ Sample.boot)
       Sample.a_script (JInt 1)
     <> Ok (Json.dumps (arguments_response (JInt 1) EmptyString)).
Proof.
  split; [reflexivity|]. vm_compute. discriminate.
Qed.

(** C2, amended: for every lookup kind and every request id, serializing an
    empty candidate sequence yields the response with that id and an empty
    results array; for the arguments lookup the response also carries an
    arguments field, which is the final tab stop [$0]. *)
Theorem serialize_nothing (env : Env) (self : State) (script : Script)
    (identifier prefix : json)
    (Hsig : get_signatures (jedi env) (settings self) script = Ok [])
    (Hcomplete : complete (jedi env) (settings self) script = Ok [])
    (Hcompletions : completions (jedi env) (settings self) script = Ok []) :
  _serialize_completions env self script identifier prefix
    = Ok (Json.dumps (response identifier []))
  /\ _serialize_definitions env [] identifier = Ok (Json.dumps (response identifier []))
  /\ _serialize_tooltip env [] identifier = Ok (Json.dumps (response identifier []))
  /\ _serialize_usages [] identifier = Json.dumps (response identifier [])
  /\ _serialize_methods env self script identifier prefix
     = Ok (PyStr (Json.dumps (response identifier [])))
  /\ _serialize_arguments env self script identifier
     = Ok (Json.dumps (arguments_response identifier "$0")).
Proof.
  unfold _serialize_completions, _serialize_methods, _serialize_arguments,
    _get_call_signatures.
  rewrite Hsig, Hcomplete, Hcompletions. repeat split.
Qed.

Lemma serialize_nothing_witness :
  _serialize_arguments (Sample.env_of Sample.quiet []) (__init__ Sample.boot)
    Sample.a_script (JStr "r7")
  = Ok (Json.dumps (arguments_response (JStr "r7") "$0")).
Proof.
  apply (serialize_nothing (Sample.env_of Sample.quiet []) (__init__ Sample.boot)
           Sample.a_script (JStr "r7") JNull); reflexivity.
Defined.

(** ** C3: deduplication in the completions lookup *)

Lemma already_have_collide acc e :
  already_have acc e = true <-> exists c, In c acc /\ collide c e = true.
Proof. unfold already_have, collide. apply existsb_exists. Qed.

Lemma already_have_app acc l e :
  already_have (acc ++ l)%list e = already_have acc e || already_have l e.
Proof. unfold already_have. apply existsb_app. Qed.

Lemma completion_entry_text self c : entry_text (completion_entry self c) = name c.
Proof. reflexivity. Qed.

(** The entries the second loop adds: each is the entry of a completion and
    collides with no entry emitted before it. *)
Lemma completions_loop_kept self cs : forall acc,
  exists kept,
    completions_loop self acc cs = (acc ++ kept)%list
    /\ (forall l1 e l2, kept = (l1 ++ e :: l2)%list ->
          already_have (acc ++ l1)%list e = false
          /\ exists c, In c cs /\ e = completion_entry self c).
Proof.
  induction cs as [|c rest IH]; intros acc; simpl.
  - exists []. split; [symmetry; apply app_nil_r|].
    intros l1 e l2 H. destruct l1; discriminate.
  - destruct (already_have acc (completion_entry self c)) eqn:E.
    + destruct (IH acc) as [kept [Hk Hp]]. exists kept. split; [exact Hk|].
      intros l1 e l2 H. destruct (Hp l1 e l2 H) as [Hn [x [Hin Hx]]].
      split; [exact Hn|]. exists x. auto.
    + destruct (IH (acc ++ [completion_entry self c])%list) as [kept [Hk Hp]].
      exists (completion_entry self c :: kept). split.
      * rewrite Hk, <- app_assoc. reflexivity.
      * intros l1 e l2 H. destruct l1 as [|x l1]; simpl in H.
        { injection H as <- _. rewrite app_nil_r. split; [exact E|].
          exists c. auto. }
        injection H as <- H.
        destruct (Hp l1 e l2 H) as [Hn [y [Hin Hy]]].
        rewrite <- app_assoc in Hn. split; [exact Hn|]. exists y. auto.
Qed.

(** No completion is lost without a reason: it is emitted, or an emitted
    entry collides with it. *)
Lemma completions_loop_covers self cs : forall acc c,
  In c cs ->
  In (completion_entry self c) (completions_loop self acc cs)
  \/ already_have (completions_loop self acc cs) (completion_entry self c) = true.
Proof.
  assert (Hmono : forall cs acc e, already_have acc e = true ->
                    already_have (completions_loop self acc cs) e = true).
  { intros cs0 acc e H. destruct (completions_loop_kept self cs0 acc) as [k [-> _]].
    rewrite already_have_app, H. reflexivity. }
  assert (Hin : forall cs acc e, In e acc -> In e (completions_loop self acc cs)).
  { intros cs0 acc e H. destruct (completions_loop_kept self cs0 acc) as [k [-> _]].
    apply in_or_app. auto. }
  induction cs as [|x rest IH]; intros acc c H; [contradiction|].
  simpl. destruct H as [<-|H].
  - destruct (already_have acc (completion_entry self x)) eqn:E.
    + right. apply Hmono, E.
    + left. apply Hin, in_or_app. simpl. auto.
  - destruct (already_have acc (completion_entry self x)); apply IH, H.
Qed.

Lemma argument_entry_text self signature n value :
  entry_text (argument_entry self signature n value)
  = if has_value value then n ++ "=" ++ value_text value else n.
Proof. unfold argument_entry. destruct (has_value value); reflexivity. Qed.

(** C3, as stated, fails: for the parameter [count=5] and the name [count]
    the text of the name, split at [=], is not the text of the argument
    entry, and still the name is dropped. *)
Lemma collision_splits_the_emitted_text :
  let self := snd (_set_request_config (JObj []) (__init__ Sample.boot)) in
  let arg := argument_entry self Sample.sig_f "count" (Some "5") in
  let nm := completion_entry self Sample.name_count in
  entry_text arg = "count=5"
  /\ entry_text nm = "count"
  /\ spec_collide arg nm = false
  /\ completions_loop self [arg] [Sample.name_count] = [arg].
Proof. repeat split. Qed.

(** C3, amended: in the completions serialization a name-candidate collides
    with an entry already emitted exactly when the text of the emitted
    entry, split at [=], equals the text of the name-candidate; on
    collision the name-candidate is dropped, and the argument entries all
    stay, first and in order; hence when the parameter [count] was emitted,
    with or without a default, a general completion named [count] adds no
    entry and the one [count] entry is the argument-flavored one. *)
Theorem completions_deduplicated (self : State) (args : list json)
    (names : list Candidate) :
  (forall e, already_have args e = true
             <-> exists c, In c args /\ Py.split_head "=" (entry_text c) = entry_text e)
  /\ (exists kept,
        completions_loop self args names = (args ++ kept)%list
        /\ (forall l1 e l2, kept = (l1 ++ e :: l2)%list ->
              already_have (args ++ l1)%list e = false
              /\ exists c, In c names /\ e = completion_entry self c)
        /\ (forall c, In c names ->
              already_have args (completion_entry self c) = true ->
              ~ In (completion_entry self c) kept))
  /\ (forall c, In c names ->
        In (completion_entry self c) (completions_loop self args names)
        \/ already_have (completions_loop self args names) (completion_entry self c)
           = true)
  /\ (forall signature value c, name c = "count" ->
        completions_loop self [argument_entry self signature "count" value] [c]
        = [argument_entry self signature "count" value]).
Proof.
  split; [|split; [|split]].
  - intros e. rewrite already_have_collide. unfold collide.
    split; intros [c [Hin H]]; exists c; split; auto.
    + apply String.eqb_eq, H.
    + apply String.eqb_eq, H.
  - destruct (completions_loop_kept self names args) as [kept [Hk Hp]].
    exists kept. split; [exact Hk|]. split; [exact Hp|].
    intros c _ Hc Hin. apply in_split in Hin. destruct Hin as [l1 [l2 E]].
    destruct (Hp _ _ _ E) as [Hn _].
    rewrite already_have_app, Hc in Hn. discriminate.
  - intros c Hin. apply completions_loop_covers, Hin.
  - intros signature value c Hc. cbn [completions_loop].
    assert (E : already_have [argument_entry self signature "count" value]
                  (completion_entry self c) = true).
    { unfold already_have. cbn [existsb].
      rewrite argument_entry_text, completion_entry_text, Hc.
      destruct (has_value value); reflexivity. }
    rewrite E. reflexivity.
Qed.

Lemma completions_deduplicated_witness :
  let self := snd (_set_request_config (JObj []) (__init__ Sample.boot)) in
  completions_loop self [argument_entry self Sample.sig_f "count" (Some "5")]
    [Sample.name_count]
  = [argument_entry self Sample.sig_f "count" (Some "5")].
Proof.
  intros self.
  apply (proj2 (proj2 (proj2 (completions_deduplicated self [] [])))).
  reflexivity.
Defined.

(** ** C7: the tooltip lookup *)

Lemma tooltip_loop_skips env skipped : forall rest,
  Forall (fun s => resolved env s = Ok None) skipped ->
  tooltip_loop env (skipped ++ rest)%list = tooltip_loop env rest.
Proof.
  induction skipped as [|s skipped IH]; intros rest H; [reflexivity|].
  inversion H as [|? ? Hs Hrest]; subst.
  rewrite <- app_comm_cons, tooltip_loop_cons, Hs. simpl. apply IH, Hrest.
Qed.

Lemma tooltip_description_cases r :
  tooltip_description r =
  match docstring r with
  | Some doc => if Py.nonempty (Py.strip doc) then Py.strip doc else _additional_info r
  | None => _additional_info r
  end.
Proof.
  unfold tooltip_description. destruct (docstring r) as [doc|]; [|reflexivity].
  destruct (Py.nonempty (Py.strip doc)); reflexivity.
Qed.

(** C7, as stated, fails: the first resolved candidate is emitted although
    its description is empty, and the documented candidate after it is
    discarded. *)
Lemma tooltip_emits_empty_description :
  let env := Sample.env_of Sample.quiet [] in
  let defs := [Sample.bare_def; Sample.documented_def] in
  tooltip_loop env defs = Ok [tooltip_entry Sample.bare_def]
  /\ entry_description (tooltip_entry Sample.bare_def) = Some (JStr EmptyString)
  /\ spec_tooltip_loop env defs = Ok [tooltip_entry Sample.documented_def]
  /\ tooltip_loop env defs <> spec_tooltip_loop env defs.
Proof.
  repeat split. vm_compute. discriminate.
Qed.

(** C7, amended: the results array of a tooltip response has at most one
    entry; it is the entry of the first candidate in input order that is
    fully resolved (it has a module path, and so has the candidate its
    import chain resolves to), whatever its description; the description is
    the doc string trimmed, or the right-hand annotation text when the
    trimmed doc string is empty, and may itself be empty; all remaining
    candidates are discarded. *)
Theorem tooltip_first_resolved (env : Env) (defs : list Candidate)
    (identifier : json) :
  (forall res, tooltip_loop env defs = Ok res -> (length res <= 1)%nat)
  /\ (forall skipped d rest r,
        defs = (skipped ++ d :: rest)%list ->
        Forall (fun s => resolved env s = Ok None) skipped ->
        resolved env d = Ok (Some r) ->
        _serialize_tooltip env defs identifier
        = Ok (Json.dumps (response identifier [tooltip_entry r]))
        /\ entry_description (tooltip_entry r)
           = Some (JStr match docstring r with
                        | Some doc =>
                            if Py.nonempty (Py.strip doc) then Py.strip doc
                            else _additional_info r
                        | None => _additional_info r
                        end))
  /\ (Forall (fun s => resolved env s = Ok None) defs ->
      _serialize_tooltip env defs identifier = Ok (Json.dumps (response identifier []))).
Proof.
  split; [|split].
  - intros res H.
    destruct (tooltip_loop_entries _ _ _ H) as [->|[d0 [d [_ [_ ->]]]]]; simpl; lia.
  - intros skipped d rest r -> Hs Hd. split.
    + unfold _serialize_tooltip.
      rewrite (tooltip_loop_skips env skipped (d :: rest) Hs), tooltip_loop_cons, Hd.
      reflexivity.
    + unfold entry_description, tooltip_entry. simpl.
      rewrite tooltip_description_cases. reflexivity.
  - intros H. unfold _serialize_tooltip.
    rewrite <- (app_nil_r defs), (tooltip_loop_skips env defs [] H). reflexivity.
Qed.

Lemma tooltip_first_resolved_witness :
  _serialize_tooltip (Sample.env_of Sample.quiet [])
    [Sample.builtin_constant; Sample.bare_def; Sample.documented_def] (JInt 4)
  = Ok (Json.dumps (response (JInt 4) [tooltip_entry Sample.bare_def])).
Proof.
  apply (proj1 (proj2 (tooltip_first_resolved (Sample.env_of Sample.quiet [])
                         [Sample.builtin_constant; Sample.bare_def;
                          Sample.documented_def] (JInt 4)))
           [Sample.builtin_constant] Sample.bare_def [Sample.documented_def]
           Sample.bare_def).
  - reflexivity.
  - repeat constructor.
  - reflexivity.
Defined.

(** ** C6: import-chain resolution *)

Lemma top_definition_loop_first_other env recurse definition ds :
  top_definition_loop env recurse definition ds =
  match first_other env definition ds with
  | None => Ok definition
  | Some d => if String.eqb (type d) "import" then recurse d else Ok d
  end.
Proof.
  unfold first_other. induction ds as [|d ds IH]; simpl; [reflexivity|].
  destruct (name_eq (jedi env) d definition); simpl; [exact IH | reflexivity].
Qed.

Lemma top_definition_step env depth d :
  _top_definition env (S depth) d =
  rbind (name_goto_assignments (jedi env) d) (fun ds =>
    match first_other env d ds with
    | None => Ok d
    | Some d' =>
        if String.eqb (type d') "import" then _top_definition env depth d' else Ok d'
    end).
Proof.
  simpl. destruct (name_goto_assignments (jedi env) d) as [ds|e]; simpl; [|reflexivity].
  apply top_definition_loop_first_other.
Qed.

(** Enough depth gives the result of the chain. *)
Lemma resolves_complete env n d r :
  resolves env n d r ->
  forall depth, (n < depth)%nat -> _top_definition env depth d = Ok r.
Proof.
  induction 1 as [d ds Hg Hf | d ds r Hg Hf Ht | n d ds d' r Hg Hf Ht _ IH];
    intros depth Hlt; (destruct depth as [|depth]; [lia|]);
    rewrite top_definition_step, Hg; simpl; rewrite Hf.
  - reflexivity.
  - destruct (String.eqb_spec (type r) "import"); [contradiction | reflexivity].
  - rewrite Ht. simpl. apply IH. lia.
Qed.

(** A result is the end of a chain shorter than the depth. *)
Lemma resolves_sound env : forall depth d r,
  _top_definition env depth d = Ok r ->
  exists n, (n < depth)%nat /\ resolves env n d r.
Proof.
  induction depth as [|depth IH]; intros d r H; [discriminate|].
  rewrite top_definition_step in H. apply rbind_ok in H. destruct H as [ds [Hg H]].
  destruct (first_other env d ds) as [d'|] eqn:Hf.
  - destruct (String.eqb_spec (type d') "import") as [Ht|Ht].
    + destruct (IH _ _ H) as [n [Hn Hr]]. exists (S n). split; [lia|].
      eapply resolves_import; eauto.
    + injection H as <-. exists 0%nat. split; [lia|].
      eapply resolves_origin; eauto.
  - injection H as <-. exists 0%nat. split; [lia|]. eapply resolves_exhausted; eauto.
Qed.

(** A chain that goes down in rank at every import ends. *)
Lemma resolves_by_rank env (rank : Candidate -> nat)
    (Hgoto : forall d, exists ds, name_goto_assignments (jedi env) d = Ok ds)
    (Hrank : forall d ds d',
        name_goto_assignments (jedi env) d = Ok ds ->
        first_other env d ds = Some d' ->
        type d' = "import" -> (rank d' < rank d)%nat) :
  forall k d, (rank d <= k)%nat ->
    exists n r, (n <= rank d)%nat /\ resolves env n d r.
Proof.
  induction k as [|k IH]; intros d Hk.
  - destruct (Hgoto d) as [ds Hg].
    destruct (first_other env d ds) as [d'|] eqn:Hf.
    + destruct (String.eqb_spec (type d') "import") as [Ht|Ht].
      * pose proof (Hrank _ _ _ Hg Hf Ht). lia.
      * exists 0%nat, d'. split; [lia|]. eapply resolves_origin; eauto.
    + exists 0%nat, d. split; [lia|]. eapply resolves_exhausted; eauto.
  - destruct (Hgoto d) as [ds Hg].
    destruct (first_other env d ds) as [d'|] eqn:Hf.
    + destruct (String.eqb_spec (type d') "import") as [Ht|Ht].
      * pose proof (Hrank _ _ _ Hg Hf Ht) as Hlt.
        destruct (IH d') as [n [r [Hn Hr]]]; [lia|].
        exists (S n), r. split; [lia|]. eapply resolves_import; eauto.
      * exists 0%nat, d'. split; [lia|]. eapply resolves_origin; eauto.
    + exists 0%nat, d. split; [lia|]. eapply resolves_exhausted; eauto.
Qed.

Lemma cyclic_never_returns : forall depth,
  _top_definition (Sample.env_of Sample.cyclic []) depth Sample.imp_a
  = Raise RecursionError
  /\ _top_definition (Sample.env_of Sample.cyclic []) depth Sample.imp_b
     = Raise RecursionError.
Proof.
  induction depth as [|depth [IHa IHb]]; [split; reflexivity|].
  split; rewrite top_definition_step.
  - change (_top_definition (Sample.env_of Sample.cyclic []) depth Sample.imp_b
            = Raise RecursionError). exact IHb.
  - change (_top_definition (Sample.env_of Sample.cyclic []) depth Sample.imp_a
            = Raise RecursionError). exact IHa.
Qed.

(** C6, as stated, fails: on two imports that resolve to each other no
    depth of recursion gives a result, and the definitions lookup ends in
    the recursion error of the interpreter. *)
Lemma mutual_imports_never_resolve :
  ~ (exists depth r,
       _top_definition (Sample.env_of Sample.cyclic []) depth Sample.imp_a = Ok r)
  /\ _serialize_definitions (Sample.env_of Sample.cyclic []) [Sample.imp_a] (JInt 1)
     = Raise RecursionError.
Proof.
  split.
  - intros [depth [r H]]. rewrite (proj1 (cyclic_never_returns depth)) in H.
    discriminate.
  - unfold _serialize_definitions. rewrite definitions_loop_cons.
    unfold resolved.
    change (has_path (module_path Sample.imp_a)) with true.
    change (String.eqb (type Sample.imp_a) "import") with true.
    cbv iota. rewrite (proj1 (cyclic_never_returns _)). reflexivity.
Qed.

(** C6, amended: import-chain resolution ends with a result whenever the
    chain of import candidates does not come back to an earlier one (a
    candidate listed among its own targets is skipped, no other repetition
    is detected): it follows the chain until a definition that is not an
    import is found or the chain is exhausted, and for a name re-exported
    through N nested imports it returns the single non-import origin as soon
    as the recursion depth allowed exceeds N. *)
Theorem top_definition_resolves (env : Env) :
  (forall n d r, resolves env n d r ->
     forall depth, (n < depth)%nat -> _top_definition env depth d = Ok r)
  /\ (forall depth d r, _top_definition env depth d = Ok r ->
        exists n, (n < depth)%nat /\ resolves env n d r)
  /\ (forall rank : Candidate -> nat,
        (forall d, exists ds, name_goto_assignments (jedi env) d = Ok ds) ->
        (forall d ds d',
            name_goto_assignments (jedi env) d = Ok ds ->
            first_other env d ds = Some d' ->
            type d' = "import" -> (rank d' < rank d)%nat) ->
        forall d, exists n r,
          (n <= rank d)%nat /\ resolves env n d r
          /\ forall depth, (rank d < depth)%nat -> _top_definition env depth d = Ok r).
Proof.
  split; [|split].
  - apply resolves_complete.
  - apply resolves_sound.
  - intros rank Hgoto Hrank d.
    destruct (resolves_by_rank env rank Hgoto Hrank (rank d) d (le_n _))
      as [n [r [Hn Hr]]].
    exists n, r. split; [exact Hn|]. split; [exact Hr|].
    intros depth Hd. eapply resolves_complete; [exact Hr | lia].
Qed.

Lemma nested_goto_total d :
  exists ds, name_goto_assignments (jedi (Sample.env_of Sample.nested [])) d = Ok ds.
Proof.
  simpl. destruct (String.eqb (name d) "a"); [eauto|].
  destruct (String.eqb (name d) "b"); eauto.
Defined.

Lemma nested_rank_decreases d ds d' :
  name_goto_assignments (jedi (Sample.env_of Sample.nested [])) d = Ok ds ->
  first_other (Sample.env_of Sample.nested []) d ds = Some d' ->
  type d' = "import" -> (Sample.nested_rank d' < Sample.nested_rank d)%nat.
Proof.
  unfold Sample.nested_rank, first_other. simpl.
  destruct (Sample.same_name Sample.imp_b d) eqn:Eb;
    destruct (String.eqb (name d) "a"); try destruct (String.eqb (name d) "b");
    intros H; injection H as <-; simpl; rewrite ?Eb; simpl;
    try discriminate;
    try (intros H _; injection H as <-; simpl; lia).
  - destruct (negb (Sample.same_name Sample.origin_c d)); [|discriminate].
    intros H Ht. injection H as <-. discriminate Ht.
Defined.

Lemma top_definition_resolves_witness :
  _top_definition (Sample.env_of Sample.nested []) 3 Sample.imp_a = Ok Sample.origin_c
  /\ exists n r,
       (n <= 2)%nat /\ resolves (Sample.env_of Sample.nested []) n Sample.imp_a r.
Proof.
  split.
  - apply (proj1 (top_definition_resolves (Sample.env_of Sample.nested []))
             1%nat Sample.imp_a Sample.origin_c); [|lia].
    apply (resolves_import _ 0 Sample.imp_a [Sample.imp_b] Sample.imp_b);
      try reflexivity.
    apply (resolves_origin _ Sample.imp_b [Sample.imp_b; Sample.origin_c]);
      try reflexivity.
    discriminate.
  - destruct (proj2 (proj2 (top_definition_resolves (Sample.env_of Sample.nested [])))
                Sample.nested_rank nested_goto_total nested_rank_decreases
                Sample.imp_a) as [n [r [Hn [Hr _]]]].
    exists n, r. split; [exact Hn | exact Hr].
Defined.

(** ** C1: the search path across requests *)

(** What [sys.path.insert] put on the list is still there after the
    assignment [sys.path = self.default_sys_path] of a later request,
    whenever the two names are bound to the same list object. *)
Lemma reset_keeps_inserted_path config path st :
  sys_path st = default_sys_path st ->
  (sys_path st < length (heap st))%nat ->
  let st' := snd (_set_request_config config (sys_path_insert0 path st)) in
  sys_path st' = default_sys_path st'
  /\ In path (deref st' (sys_path st')).
Proof.
  intros Halias Hlt.
  assert (Hins : In path (deref (sys_path_insert0 path st) (sys_path st))).
  { unfold sys_path_insert0, deref. simpl. clear Halias.
    revert Hlt. generalize (sys_path st) as r. generalize (nth (sys_path st) (heap st) []).
    intros old r. revert r. induction (heap st) as [|h t IH]; intros r Hlt; simpl in Hlt.
    - lia.
    - destruct r as [|r]; simpl; [auto|]. apply IH. lia. }
  assert (Hloop : forall paths s, heap (extra_paths_loop paths s) = heap s
                    /\ sys_path (extra_paths_loop paths s) = sys_path s
                    /\ default_sys_path (extra_paths_loop paths s) = default_sys_path s).
  { induction paths as [|p paths IH]; intros s; simpl; [auto|].
    destruct (Json.truthy p && negb (in_paths p (deref s (sys_path s))));
      [|apply IH].
    destruct (IH (set_extra_paths (extra_paths s ++ [p])%list s)) as [H1 [H2 H3]].
    simpl in *. auto. }
  unfold _set_request_config, bind, modify, lift, raise.
  destruct config as [| | | | |c]; simpl; try (split; [reflexivity|]);
    try (unfold deref in *; simpl; rewrite <- Halias; exact Hins).
  destruct (iterate (Json.get c "extraPaths" (JArr []))) as [paths|e]; simpl.
  - match goal with |- context [extra_paths_loop paths ?s] =>
      destruct (Hloop paths s) as [H1 [H2 H3]] end.
    simpl in H1, H2, H3. split; [rewrite H2, H3; reflexivity|].
    unfold deref in *. rewrite H1, H2. rewrite <- Halias. exact Hins.
  - split; [reflexivity|]. unfold deref in *. simpl. rewrite <- Halias. exact Hins.
Qed.

(** C1 fails on the code: request A, with [extraPaths] holding [/x] and a
    file of its own project, then request B with no config.  The extra
    path of A is gone when B runs, but the package root A put on [sys.path]
    is still on the search path of B, and the baseline itself has changed. *)
Theorem package_root_outlives_request :
  let env := Sample.env_of Sample.quiet [Sample.request_A; Sample.request_B] in
  let st0 := __init__ Sample.boot in
  let stA := snd (_process_request env (Sample.line_of Sample.request_A) st0) in
  let stB := snd (_process_request env (Sample.line_of Sample.request_B) stA) in
  extra_paths stA = [JStr "/x"]
  /\ extra_paths stB = []
  /\ search_path (settings stB)
     = ["/other/b.py"; "/proj/a/mod.py"; "/usr/lib/python3"]
  /\ In "/proj/a/mod.py" (search_path (settings stB))
  /\ deref stB (default_sys_path stB) <> Sample.boot.
Proof.
  vm_compute. repeat split; auto. discriminate.
Qed.

(** ** The branches of [_process_request] *)

Lemma eq_str_true j s : Json.eq_str j s = true -> j = JStr s.
Proof.
  destruct j; simpl; try discriminate. intros H. apply String.eqb_eq in H.
  congruence.
Qed.

Lemma dispatch_falls_through env r script st :
  (forall s, In s named_lookups ->
     Json.eq_str (Json.get r "lookup" (JStr "completions")) s = false) ->
  dispatch env r script st = completions_branch env r script st.
Proof.
  intros H. unfold dispatch.
  rewrite (H "definitions"), (H "tooltip"), (H "arguments"), (H "usages"),
    (H "methods") by (simpl; auto 10).
  reflexivity.
Qed.

Lemma completions_branch_answers env r script st identifier text :
  getitem r "id" = Ok identifier ->
  _serialize_completions env st script identifier
    (Json.get r "prefix" (JStr EmptyString)) = Ok text ->
  completions_branch env r script st = (Ok tt, answered text st).
Proof.
  intros Hid Hs. unfold completions_branch, bind, lift.
  rewrite Hid. simpl. rewrite Hs. reflexivity.
Qed.

Lemma unnamed_lookup_tests r :
  (Json.lookup "lookup" r = None
   \/ exists s, Json.lookup "lookup" r = Some (JStr s) /\ ~ In s named_lookups) ->
  forall s, In s named_lookups ->
    Json.eq_str (Json.get r "lookup" (JStr "completions")) s = false.
Proof.
  intros H s Hs. unfold Json.get.
  destruct H as [-> | [s' [-> Hn]]]; simpl.
  - unfold named_lookups in Hs. simpl in Hs.
    destruct Hs as [<-|[<-|[<-|[<-|[<-|[]]]]]]; reflexivity.
  - destruct (String.eqb_spec s' s) as [->|]; [contradiction | reflexivity].
Qed.

(** ** C4: a missing-key failure of the engine *)

(** C4, as stated, fails: when the engine fails on a missing key during a
    definitions lookup, the failure reaches the loop, which logs it, and no
    response is written. *)
Lemma stale_definitions_lookup_is_not_answered :
  let wanted := Sample.request 3 "definitions" "/p.py" [] in
  let env := Sample.env_of Sample.stale [wanted] in
  let final := snd (watch env [Sample.line_of wanted] (__init__ Sample.boot)) in
  fst (_process_request env (Sample.line_of wanted) (__init__ Sample.boot))
  = Raise KeyError
  /\ stdout_data final = []
  /\ stderr_data final = [format_exc env KeyError ++ newline].
Proof. vm_compute. repeat split. Qed.

(** The methods lookup catches the failure and returns a list, which
    [_write_response] cannot join to a newline: no response either. *)
Lemma stale_methods_lookup_is_not_answered :
  let wanted := Sample.request 3 "methods" "/p.py" [] in
  let env := Sample.env_of Sample.stale [wanted] in
  let final := snd (watch env [Sample.line_of wanted] (__init__ Sample.boot)) in
  _serialize_methods env (__init__ Sample.boot) Sample.a_script (JInt 3) JNull
  = Ok (PyList [])
  /\ fst (_process_request env (Sample.line_of wanted) (__init__ Sample.boot))
     = Raise TypeError
  /\ stdout_data final = [].
Proof. vm_compute. repeat split. Qed.

Lemma soothe_guarded c : except_KeyError (soothe c) (Ok []) = except_KeyError c (Ok []).
Proof. destruct c as [l|[]]; reflexivity. Qed.

Lemma serialize_completions_soothed env st script identifier prefix :
  _serialize_completions (with_engine env (soothed (jedi env))) st script identifier prefix
  = _serialize_completions env st script identifier prefix.
Proof.
  unfold _serialize_completions, _get_call_signatures. cbn [jedi with_engine soothed
    get_signatures complete]. rewrite !soothe_guarded. reflexivity.
Qed.

Lemma serialize_arguments_soothed env st script identifier :
  _serialize_arguments (with_engine env (soothed (jedi env))) st script identifier
  = _serialize_arguments env st script identifier.
Proof.
  unfold _serialize_arguments, _get_call_signatures. cbn [jedi with_engine soothed
    get_signatures]. rewrite soothe_guarded. reflexivity.
Qed.

(** C4, amended: in the completions and arguments lookups a missing-key
    failure of the signature query or of the completion query is treated as
    an empty candidate sequence, whichever of the two fails and whatever the
    other answers: the request ends exactly as with an engine that answers
    no candidate there, with a well-formed response written for the client
    (empty results when both queries fail, the argument entries alone when
    the completion query fails, the snippet [$0] for arguments); in the
    definitions, tooltip and usages lookups the failure is not caught by
    the adapter: it reaches the dispatch loop and no response is written. *)
Theorem missing_key_failure_by_lookup (env : Env) (r : list (string * json))
    (script : Script) (st : State) (identifier : json)
    (Hid : getitem r "id" = Ok identifier) :
  let lookup := Json.get r "lookup" (JStr "completions") in
  (get_signatures (jedi env) (settings st) script = Raise KeyError ->
   complete (jedi env) (settings st) script = Raise KeyError ->
   (forall s, In s named_lookups -> Json.eq_str lookup s = false) ->
   dispatch env r script st
   = (Ok tt, answered (Json.dumps (response identifier [])) st))
  /\ (get_signatures (jedi env) (settings st) script = Raise KeyError ->
      forall names, complete (jedi env) (settings st) script = Ok names ->
      (forall s, In s named_lookups -> Json.eq_str lookup s = false) ->
      dispatch env r script st
      = (Ok tt, answered (Json.dumps (response identifier
                                        (completions_loop st [] names))) st))
  /\ (get_signatures (jedi env) (settings st) script = Raise KeyError ->
      Json.eq_str lookup "arguments" = true ->
      dispatch env r script st
      = (Ok tt, answered (Json.dumps (arguments_response identifier "$0")) st))
  /\ (goto_assignments (jedi env) (settings st) script = Raise KeyError ->
      Json.eq_str lookup "definitions" = true \/ Json.eq_str lookup "tooltip" = true ->
      dispatch env r script st = (Raise KeyError, st))
  /\ (usages (jedi env) (settings st) script = Raise KeyError ->
      Json.eq_str lookup "usages" = true ->
      dispatch env r script st = (Raise KeyError, st))
  /\ (forall cs sigs args,
        get_signatures (jedi env) (settings st) script = Ok cs ->
        signatures_loop cs = Ok sigs ->
        arguments_loop st (Json.get r "prefix" (JStr EmptyString)) sigs = Ok args ->
        complete (jedi env) (settings st) script = Raise KeyError ->
        (forall s, In s named_lookups -> Json.eq_str lookup s = false) ->
        dispatch env r script st
        = (Ok tt, answered (Json.dumps (response identifier args)) st))
  /\ ((forall s, In s named_lookups -> Json.eq_str lookup s = false)
      \/ Json.eq_str lookup "arguments" = true ->
      dispatch env r script st
      = dispatch (with_engine env (soothed (jedi env))) r script st).
Proof.
  intros lookup. subst lookup.
  split; [|split; [|split; [|split; [|split; [|split]]]]].
  - intros Hs Hc Hl. rewrite (dispatch_falls_through _ _ _ _ Hl).
    eapply completions_branch_answers; [exact Hid|].
    unfold _serialize_completions, _get_call_signatures. rewrite Hs, Hc. reflexivity.
  - intros Hs names Hc Hl. rewrite (dispatch_falls_through _ _ _ _ Hl).
    eapply completions_branch_answers; [exact Hid|].
    unfold _serialize_completions, _get_call_signatures. rewrite Hs, Hc. reflexivity.
  - intros Hs Hl. apply eq_str_true in Hl. unfold dispatch. rewrite Hl. simpl.
    unfold bind, lift. rewrite Hid. simpl.
    unfold _serialize_arguments, _get_call_signatures. rewrite Hs. reflexivity.
  - intros Hg [Hl|Hl]; apply eq_str_true in Hl; unfold dispatch; rewrite Hl; simpl;
      unfold bind, lift; rewrite Hg; reflexivity.
  - intros Hu Hl. apply eq_str_true in Hl. unfold dispatch. rewrite Hl. simpl.
    unfold bind, lift. rewrite Hu. reflexivity.
  - intros cs sigs args Hs Hl Ha Hc Hf. rewrite (dispatch_falls_through _ _ _ _ Hf).
    eapply completions_branch_answers; [exact Hid|].
    unfold _serialize_completions, _get_call_signatures. rewrite Hs. cbn [except_KeyError rbind].
    rewrite Hl. cbn [rbind]. rewrite Ha. cbn [rbind]. rewrite Hc. reflexivity.
  - intros [Hf|Hl].
    + rewrite (dispatch_falls_through _ _ _ _ Hf), (dispatch_falls_through _ _ _ _ Hf).
      unfold completions_branch, bind, lift.
      destruct (getitem r "id") as [i|e]; [|reflexivity]. cbn [rbind].
      rewrite serialize_completions_soothed. reflexivity.
    + apply eq_str_true in Hl. unfold dispatch. rewrite Hl. simpl.
      unfold bind, lift. destruct (getitem r "id") as [i|e]; [|reflexivity].
      cbn [rbind]. rewrite serialize_arguments_soothed. reflexivity.
Qed.

Lemma missing_key_failure_by_lookup_witness :
  (let r := [("id", JInt 3); ("lookup", JStr "arguments")] in
   let env := Sample.env_of Sample.stale [] in
   dispatch env r Sample.a_script (__init__ Sample.boot)
   = (Ok tt, answered (Json.dumps (arguments_response (JInt 3) "$0"))
               (__init__ Sample.boot)))
  /\ (let r := [("id", JInt 4); ("prefix", JStr "co")] in
      let env := Sample.env_of More.half_stale [] in
      dispatch env r Sample.a_script More.ready
      = (Ok tt, answered (Json.dumps
                            (response (JInt 4)
                               [argument_entry More.ready Sample.sig_f "count"
                                  (Some "5")]))
                  More.ready)).
Proof.
  split.
  - intros r env.
    apply (proj1 (proj2 (proj2
             (missing_key_failure_by_lookup env r Sample.a_script
                (__init__ Sample.boot) (JInt 3) eq_refl)))); reflexivity.
  - intros r env.
    apply (proj1 (proj2 (proj2 (proj2 (proj2 (proj2
             (missing_key_failure_by_lookup env r Sample.a_script
                More.ready (JInt 4) eq_refl))))))
             [Sample.sig_f] [(Sample.sig_f, "count", Some "5")]); try reflexivity.
    intros s Hs. unfold named_lookups in Hs. simpl in Hs.
    destruct Hs as [<-|[<-|[<-|[<-|[<-|[]]]]]]; reflexivity.
Defined.

(** ** C10: the default lookup *)

(** C10: a decodable request whose lookup field is missing, or is a string
    other than definitions, tooltip, arguments, usages and methods, is
    processed as a completions lookup: the branch taken is the one of a
    request whose lookup is completions, the completions serializer runs,
    and its response is the line written. *)
Theorem unnamed_lookup_is_completions (env : Env) (r : list (string * json))
    (script : Script) (st : State)
    (Hlookup : Json.lookup "lookup" r = None
               \/ exists s, Json.lookup "lookup" r = Some (JStr s)
                            /\ ~ In s named_lookups) :
  dispatch env r script st = completions_branch env r script st
  /\ dispatch env r script st
     = dispatch env (("lookup", JStr "completions") :: r) script st
  /\ (forall identifier text,
        getitem r "id" = Ok identifier ->
        _serialize_completions env st script identifier
          (Json.get r "prefix" (JStr EmptyString)) = Ok text ->
        dispatch env r script st = (Ok tt, answered text st)
        /\ forall request st0,
             open_script env request st0 = (Ok (r, script), st) ->
             _process_request env request st0 = (Ok tt, answered text st)).
Proof.
  pose proof (dispatch_falls_through env r script st
                (unnamed_lookup_tests r Hlookup)) as Hd.
  split; [exact Hd|]. split.
  - rewrite Hd, dispatch_falls_through; [reflexivity|].
    intros s Hs. unfold named_lookups in Hs. simpl in Hs.
    destruct Hs as [<-|[<-|[<-|[<-|[<-|[]]]]]]; reflexivity.
  - intros identifier text Hid Hs.
    assert (Ha : dispatch env r script st = (Ok tt, answered text st)).
    { rewrite Hd. eapply completions_branch_answers; eassumption. }
    split; [exact Ha|].
    intros request st0 Ho. unfold _process_request, bind. rewrite Ho. exact Ha.
Qed.

Lemma hover_is_unnamed :
  Json.lookup "lookup" [("id", JInt 5); ("lookup", JStr "hover")] = None
  \/ exists s, Json.lookup "lookup" [("id", JInt 5); ("lookup", JStr "hover")]
               = Some (JStr s)
               /\ ~ In s named_lookups.
Proof.
  right. exists "hover". split; [reflexivity|].
  simpl. intros [H|[H|[H|[H|[H|[]]]]]]; discriminate.
Defined.

Lemma unnamed_lookup_is_completions_witness :
  let r := [("id", JInt 5); ("lookup", JStr "hover")] in
  let env := Sample.env_of Sample.quiet [] in
  dispatch env r Sample.a_script (__init__ Sample.boot)
  = (Ok tt, answered (Json.dumps (response (JInt 5) [])) (__init__ Sample.boot)).
Proof.
  intros r env.
  apply (proj1 (proj2 (proj2 (unnamed_lookup_is_completions env r Sample.a_script
                                (__init__ Sample.boot) hover_is_unnamed))
                  (JInt 5) (Json.dumps (response (JInt 5) [])) eq_refl eq_refl)).
Defined.

(** ** C9: the dispatch loop *)

Lemma same_output_refl st : same_output st st.
Proof. split; reflexivity. Qed.

Lemma same_output_trans a b c :
  same_output a b -> same_output b c -> same_output a c.
Proof. intros [H1 H2] [H3 H4]. split; congruence. Qed.

Lemma silent_ret {A : Type} (a : A) : silent (ret a).
Proof. intros st. apply same_output_refl. Qed.

Lemma silent_raise {A : Type} (e : exn) : silent (@raise A e).
Proof. intros st. apply same_output_refl. Qed.

Lemma silent_lift {A : Type} (f : State -> result A) : silent (lift f).
Proof. intros st. apply same_output_refl. Qed.

Lemma silent_modify (f : State -> State) :
  (forall st, same_output st (f st)) -> silent (modify f).
Proof. intros H st. apply H. Qed.

Lemma silent_bind {A B : Type} (c : M A) (k : A -> M B) :
  silent c -> (forall a, silent (k a)) -> silent (bind c k).
Proof.
  intros Hc Hk st. unfold bind. specialize (Hc st).
  destruct (c st) as [[a|e] st']; simpl in *; [|exact Hc].
  eapply same_output_trans; [exact Hc | apply Hk].
Qed.

Lemma extra_paths_loop_silent paths : forall st,
  same_output st (extra_paths_loop paths st).
Proof.
  induction paths as [|p paths IH]; intros st; simpl; [apply same_output_refl|].
  destruct (Json.truthy p && negb (in_paths p (deref st (sys_path st))));
    [|apply IH].
  eapply same_output_trans; [|apply IH]. split; reflexivity.
Qed.

Lemma set_request_config_silent config : silent (_set_request_config config).
Proof.
  unfold _set_request_config. apply silent_bind.
  - apply silent_modify. intros st. split; reflexivity.
  - intros _. destruct config; try apply silent_raise.
    repeat (apply silent_bind; [|intros ?]);
      try apply silent_lift; try (apply silent_modify; intros st; split; reflexivity).
    apply silent_modify, extra_paths_loop_silent.
Qed.

Lemma open_script_silent env request : silent (open_script env request).
Proof.
  unfold open_script. apply silent_bind; [apply silent_lift|].
  intros [| | | | |r]; try apply silent_raise.
  repeat first [ apply set_request_config_silent | apply silent_lift
               | apply silent_ret | apply silent_bind; [|intros ?] ].
  apply silent_modify. intros st.
  match goal with |- context [if ?b then _ else _] => destruct b end;
    split; reflexivity.
Qed.

Lemma write_response_outcome o st :
  response_object o ->
  match _write_response o st with
  | (Ok _, st') => exists fields, st' = answered (Json.dumps (JObj fields)) st
  | (Raise _, st') => same_output st st'
  end.
Proof.
  destruct o as [s|l]; simpl; intros H.
  - destruct H as [fields ->]. exists fields. reflexivity.
  - split; reflexivity.
Qed.

Lemma serialized_object {A : Type} (c : result A) (k : A -> json) (s : string) :
  rbind c (fun a => Ok (Json.dumps (k a))) = Ok s ->
  (forall a, exists fields, k a = JObj fields) ->
  exists fields, s = Json.dumps (JObj fields).
Proof.
  intros H Hk. destruct c as [a|e]; [|discriminate].
  destruct (Hk a) as [fields E]. exists fields. rewrite <- E.
  injection H as <-. reflexivity.
Qed.

Lemma serialize_completions_object env self script identifier prefix s :
  _serialize_completions env self script identifier prefix = Ok s ->
  exists fields, s = Json.dumps (JObj fields).
Proof.
  unfold _serialize_completions. intros H.
  apply rbind_ok in H. destruct H as [sigs [_ H]].
  apply rbind_ok in H. destruct H as [args [_ H]].
  eapply serialized_object; [exact H|]. intros a. unfold response. eauto.
Qed.

Lemma serialize_methods_object env self script identifier prefix o :
  _serialize_methods env self script identifier prefix = Ok o -> response_object o.
Proof.
  unfold _serialize_methods. intros H.
  destruct (completions (jedi env) (settings self) script) as [cs|[]];
    try discriminate; try (injection H as <-; exact I).
  apply rbind_ok in H. destruct H as [instance [_ H]].
  destruct (methods_loop instance cs) as [l|e]; [|discriminate].
  injection H as <-. exists [("id", identifier); ("results", JArr l)].
  reflexivity.
Qed.

Lemma dispatch_outcome env r script st :
  match dispatch env r script st with
  | (Ok _, st') => exists fields, st' = answered (Json.dumps (JObj fields)) st
  | (Raise _, st') => same_output st st'
  end.
Proof.
  assert (Hgen : forall f : State -> result pyobj,
             (forall o, f st = Ok o -> response_object o) ->
             match bind (lift f) _write_response st with
             | (Ok _, st') => exists fields, st' = answered (Json.dumps (JObj fields)) st
             | (Raise _, st') => same_output st st'
             end).
  { intros f Hf. unfold bind, lift. destruct (f st) as [o|e] eqn:E.
    - apply write_response_outcome, Hf. reflexivity.
    - apply same_output_refl. }
  unfold dispatch.
  repeat match goal with |- context [if ?b then _ else _] => destruct b end;
    apply Hgen; intros o H.
  - apply rbind_ok in H. destruct H as [ds [_ H]].
    apply rbind_ok in H. destruct H as [identifier [_ H]].
    apply rbind_ok in H. destruct H as [s [Hs H]]. injection H as <-.
    eapply serialized_object; [exact Hs|]. intros a. unfold response. eauto.
  - apply rbind_ok in H. destruct H as [ds [_ H]].
    apply rbind_ok in H. destruct H as [identifier [_ H]].
    apply rbind_ok in H. destruct H as [s [Hs H]]. injection H as <-.
    eapply serialized_object; [exact Hs|]. intros a. unfold response. eauto.
  - apply rbind_ok in H. destruct H as [identifier [_ H]].
    apply rbind_ok in H. destruct H as [s [Hs H]]. injection H as <-.
    unfold _serialize_arguments in Hs.
    eapply serialized_object; [exact Hs|]. intros a. eauto.
  - apply rbind_ok in H. destruct H as [found [_ H]].
    destruct (getitem r "id") as [identifier|e]; [|discriminate].
    injection H as <-.
    exists [("id", identifier); ("results", JArr (map usage_entry found))].
    reflexivity.
  - apply rbind_ok in H. destruct H as [identifier [_ H]].
    eapply serialize_methods_object, H.
  - apply rbind_ok in H. destruct H as [identifier [_ H]].
    apply rbind_ok in H. destruct H as [s [Hs H]]. injection H as <-.
    eapply serialize_completions_object, Hs.
Qed.

Lemma process_request_outcome env request st :
  match _process_request env request st with
  | (Ok _, st') =>
      exists st1 fields,
        same_output st st1 /\ st' = answered (Json.dumps (JObj fields)) st1
  | (Raise _, st') => same_output st st'
  end.
Proof.
  unfold _process_request, bind.
  pose proof (open_script_silent env request st) as Ho.
  destruct (open_script env request st) as [[[r script]|e] st1]; simpl in *;
    [|exact Ho].
  pose proof (dispatch_outcome env r script st1) as Hd.
  destruct (dispatch env r script st1) as [[u|e] st2].
  - destruct Hd as [fields ->]. exists st1, fields. split; [exact Ho | reflexivity].
  - eapply same_output_trans; eassumption.
Qed.

(** *** The encoder writes one line *)

Lemma single_line_app a b : single_line a -> single_line b -> single_line (a ++ b).
Proof.
  unfold single_line. induction a as [|c a IH]; simpl; intros Ha Hb; [exact Hb|].
  apply andb_true_iff in Ha. destruct Ha as [Hc Ha].
  rewrite Hc. simpl. apply IH; assumption.
Qed.

Lemma single_line_escape_char c : single_line (Json.escape_char c).
Proof.
  destruct c as [[] [] [] [] [] [] [] []]; reflexivity.
Qed.

Lemma single_line_escape s : single_line (Json.escape s).
Proof.
  induction s as [|c s IH]; [reflexivity|]. simpl.
  apply single_line_app; [apply single_line_escape_char | exact IH].
Qed.

Lemma single_line_quote s : single_line (Json.quote s).
Proof.
  unfold Json.quote.
  repeat apply single_line_app; try reflexivity. apply single_line_escape.
Qed.

Lemma single_line_uint d : single_line (NilEmpty.string_of_uint d).
Proof.
  unfold single_line.
  induction d; simpl; try reflexivity; exact IHd.
Qed.

Lemma single_line_str_of_Z z : single_line (Py.str_of_Z z).
Proof.
  unfold Py.str_of_Z, NilZero.string_of_int.
  destruct (Z.to_int z) as [d|d]; unfold NilZero.string_of_uint.
  - destruct d; try reflexivity; apply single_line_uint.
  - change (single_line ("-" ++ match d with
                                | Decimal.Nil => "0"
                                | _ => NilEmpty.string_of_uint d
                                end)).
    apply single_line_app; [reflexivity|].
    destruct d; try reflexivity; apply single_line_uint.
Qed.

Lemma single_line_join sep l :
  single_line sep -> Forall single_line l -> single_line (Py.join sep l).
Proof.
  intros Hsep H. unfold Py.join. induction H as [|x l Hx Hl IH]; [reflexivity|].
  simpl. destruct l as [|y l]; [exact Hx|].
  repeat apply single_line_app; assumption.
Qed.

(** Induction on a JSON value, with the hypothesis for every item of an
    array and every value of an object. *)
Lemma json_induction (P : json -> Prop)
    (Hnull : P JNull) (Hbool : forall b, P (JBool b)) (Hint : forall z, P (JInt z))
    (Hstr : forall s, P (JStr s))
    (Harr : forall l, Forall P l -> P (JArr l))
    (Hobj : forall kvs, Forall (fun kv => P (snd kv)) kvs -> P (JObj kvs)) :
  forall j, P j.
Proof.
  fix IH 1. intros [| b | z | s | l | kvs].
  - exact Hnull.
  - apply Hbool.
  - apply Hint.
  - apply Hstr.
  - apply Harr. induction l as [|x l IHl]; constructor; [apply IH | exact IHl].
  - apply Hobj. induction kvs as [|[k v] kvs IHk]; constructor;
      [apply IH | exact IHk].
Qed.

Lemma single_line_dumps : forall j, single_line (Json.dumps j).
Proof.
  apply json_induction.
  - reflexivity.
  - intros []; reflexivity.
  - apply single_line_str_of_Z.
  - apply single_line_quote.
  - intros l H.
    change (single_line ("[" ++ Py.join ", " (map Json.dumps l) ++ "]")).
    repeat apply single_line_app; try reflexivity.
    apply single_line_join; [reflexivity|].
    induction H; cbn [map]; constructor; assumption.
  - intros kvs H.
    change (single_line
              ("{" ++ Py.join ", "
                        (map (fun '(k, v) => Json.quote k ++ ": " ++ Json.dumps v) kvs)
               ++ "}")).
    repeat apply single_line_app; try reflexivity.
    apply single_line_join; [reflexivity|].
    induction H as [|[k v] kvs Hv _ IH]; cbn [map]; constructor; [|exact IH].
    apply single_line_app; [apply single_line_quote|].
    apply single_line_app; [reflexivity | exact Hv].
Qed.

(** *** The loop *)

Lemma watch_cons env request rest st :
  watch env (request :: rest) st =
  if negb (Py.nonempty request) then (rest, set_streams Devnull Devnull st)
  else
    match _process_request env request (set_streams Devnull Devnull st) with
    | (Ok _, st') => watch env rest st'
    | (Raise e, st') =>
        watch env rest
          (write Stderr (format_exc env e ++ newline)
             (set_streams (sys_stdout st') Stderr st'))
    end.
Proof. reflexivity. Qed.

Lemma answered_is_response_line fields st :
  stdout_data (answered (Json.dumps (JObj fields)) st)
  = (stdout_data st ++ [(Json.dumps (JObj fields) ++ newline)%string])%list
  /\ stderr_data (answered (Json.dumps (JObj fields)) st) = stderr_data st
  /\ response_line (Json.dumps (JObj fields) ++ newline).
Proof.
  repeat split. exists fields. split; [reflexivity | apply single_line_dumps].
Qed.

(** One request in the loop adds one response line and no diagnostic, or
    one diagnostic and no response line. *)
Lemma handled_once env request st :
  match _process_request env request (set_streams Devnull Devnull st) with
  | (Ok _, st') =>
      exists chunk,
        stdout_data st' = (stdout_data st ++ [chunk])%list
        /\ response_line chunk /\ stderr_data st' = stderr_data st
  | (Raise _, st') =>
      stdout_data st' = stdout_data st /\ stderr_data st' = stderr_data st
  end.
Proof.
  pose proof (process_request_outcome env request (set_streams Devnull Devnull st)) as H.
  destruct (_process_request env request (set_streams Devnull Devnull st))
    as [[u|e] st'].
  - destruct H as [st1 [fields [[Ho He] ->]]].
    destruct (answered_is_response_line fields st1) as [H1 [H2 H3]].
    exists (Json.dumps (JObj fields) ++ newline).
    rewrite H1, H2, Ho, He. auto.
  - exact H.
Qed.

Lemma watch_outcome env lines : forall st,
  Forall (fun l => l <> EmptyString) lines ->
  fst (watch env lines st) = []
  /\ exists out err,
       stdout_data (snd (watch env lines st)) = (stdout_data st ++ out)%list
       /\ stderr_data (snd (watch env lines st)) = (stderr_data st ++ err)%list
       /\ (length out + length err = length lines)%nat
       /\ Forall response_line out
       /\ Forall (fun chunk => exists e, chunk = format_exc env e ++ newline) err.
Proof.
  induction lines as [|request rest IH]; intros st H.
  - split; [reflexivity|]. exists [], []. simpl. rewrite !app_nil_r. auto.
  - inversion H as [|? ? Hne Hrest]; subst. rewrite watch_cons.
    destruct request as [|c request]; [contradiction|].
    cbn [Py.nonempty negb].
    pose proof (handled_once env (String c request) st) as Hh.
    destruct (_process_request env (String c request) (set_streams Devnull Devnull st))
      as [[u|e] st'].
    + destruct Hh as [chunk [Ho [Hl He]]].
      destruct (IH st' Hrest) as [Hf [out [err [H1 [H2 [H3 [H4 H5]]]]]]].
      split; [exact Hf|]. exists (chunk :: out), err.
      rewrite H1, H2, Ho, He, <- app_assoc. simpl.
      repeat split; auto; lia.
    + destruct Hh as [Ho He].
      destruct (IH (write Stderr (format_exc env e ++ newline)
                      (set_streams (sys_stdout st') Stderr st')) Hrest)
        as [Hf [out [err [H1 [H2 [H3 [H4 H5]]]]]]].
      split; [exact Hf|]. exists out, ((format_exc env e ++ newline) :: err).
      rewrite H1, H2. simpl. rewrite Ho, He, <- app_assoc. simpl.
      repeat split; auto; try lia. constructor; [eauto | exact H5].
Qed.

Lemma turn_raise env st request e st1 :
  _process_request env request (set_streams Devnull Devnull st) = (Raise e, st1) ->
  turn env st request
  = write Stderr (format_exc env e ++ newline) (set_streams (sys_stdout st1) Stderr st1)
  /\ stdout_data (turn env st request) = stdout_data st
  /\ stderr_data (turn env st request)
     = (stderr_data st ++ [(format_exc env e ++ newline)%string])%list.
Proof.
  intros H. pose proof (handled_once env request st) as Hh. rewrite H in Hh.
  destruct Hh as [Ho He]. unfold turn. rewrite H. cbn. rewrite Ho, He. auto.
Qed.

Lemma turn_ok env st request st1 :
  _process_request env request (set_streams Devnull Devnull st) = (Ok tt, st1) ->
  turn env st request = st1
  /\ exists chunk,
       stdout_data st1 = (stdout_data st ++ [chunk])%list
       /\ response_line chunk /\ stderr_data st1 = stderr_data st.
Proof.
  intros H. pose proof (handled_once env request st) as Hh. rewrite H in Hh.
  split; [unfold turn; rewrite H; reflexivity | exact Hh].
Qed.

(** The loop is one turn per line, each from the state the turn before
    left, whatever the turns before raised. *)
Lemma watch_turns env lines :
  Forall (fun l => l <> EmptyString) lines ->
  forall st,
    watch env lines st
    = ([], set_streams Devnull Devnull (fold_left (turn env) lines st)).
Proof.
  induction 1 as [|request rest Hne _ IH]; intros st; [reflexivity|].
  rewrite watch_cons. destruct request; [contradiction|]. cbn [Py.nonempty negb].
  cbn [fold_left]. rewrite <- IH. unfold turn.
  destruct (_process_request env (String a request) (set_streams Devnull Devnull st))
    as [[u|e] st']; reflexivity.
Qed.

(** C9: no exception raised while a request is handled ends the dispatch
    loop: whatever the exception, it is caught at the loop boundary and
    logged to the diagnostics channel, and the loop goes on with the next
    request, handled as any other, until the end of the input; an
    undecodable line gives no response line, a request handled with success
    gives exactly one newline-terminated JSON line, so one malformed line
    (or one request that fails in any other way) followed by one valid
    request yields exactly one response line, the one of the valid
    request. *)
Theorem watch_contains_failures (env : Env) :
  (forall lines st,
      Forall (fun l => l <> EmptyString) lines ->
      fst (watch env lines st) = []
      /\ exists out err,
           stdout_data (snd (watch env lines st)) = (stdout_data st ++ out)%list
           /\ stderr_data (snd (watch env lines st)) = (stderr_data st ++ err)%list
           /\ (length out + length err = length lines)%nat
           /\ Forall response_line out
           /\ Forall (fun chunk => exists e, chunk = format_exc env e ++ newline) err)
  /\ (forall request st,
        json_loads env request = None ->
        _process_request env request st = (Raise ValueError, st))
  /\ (forall request st st',
        _process_request env request (set_streams Devnull Devnull st) = (Ok tt, st') ->
        exists chunk,
          stdout_data st' = (stdout_data st ++ [chunk])%list /\ response_line chunk)
  /\ (forall bad good st st',
        bad <> EmptyString -> good <> EmptyString ->
        json_loads env bad = None ->
        _process_request env good (snd (watch env [bad] st)) = (Ok tt, st') ->
        watch env [bad; good] st = ([], set_streams Devnull Devnull st')
        /\ exists chunk,
             stdout_data st' = (stdout_data st ++ [chunk])%list
             /\ response_line chunk
             /\ stderr_data st'
                = (stderr_data st ++ [(format_exc env ValueError ++ newline)%string])%list)
  /\ (forall lines st,
        Forall (fun l => l <> EmptyString) lines ->
        watch env lines st
        = ([], set_streams Devnull Devnull (fold_left (turn env) lines st)))
  /\ (forall request st e st1,
        _process_request env request (set_streams Devnull Devnull st) = (Raise e, st1) ->
        turn env st request
        = write Stderr (format_exc env e ++ newline)
            (set_streams (sys_stdout st1) Stderr st1)
        /\ stdout_data (turn env st request) = stdout_data st
        /\ stderr_data (turn env st request)
           = (stderr_data st ++ [(format_exc env e ++ newline)%string])%list)
  /\ (forall request st st1,
        _process_request env request (set_streams Devnull Devnull st) = (Ok tt, st1) ->
        turn env st request = st1
        /\ exists chunk,
             stdout_data st1 = (stdout_data st ++ [chunk])%list
             /\ response_line chunk /\ stderr_data st1 = stderr_data st)
  /\ (forall failing good rest st e st1 st',
        failing <> EmptyString -> good <> EmptyString ->
        _process_request env failing (set_streams Devnull Devnull st) = (Raise e, st1) ->
        _process_request env good
          (set_streams Devnull Devnull (turn env st failing)) = (Ok tt, st') ->
        watch env (failing :: good :: rest) st = watch env rest st'
        /\ watch env [failing; good] st = ([], set_streams Devnull Devnull st')
        /\ exists chunk,
             stdout_data st' = (stdout_data st ++ [chunk])%list
             /\ response_line chunk
             /\ stderr_data st'
                = (stderr_data st ++ [(format_exc env e ++ newline)%string])%list).
Proof.
  assert (Hbad : forall request st, json_loads env request = None ->
                   _process_request env request st = (Raise ValueError, st)).
  { intros request st H.
    unfold _process_request, open_script, bind, lift, _deserialize.
    rewrite H. reflexivity. }
  split; [intros lines st; apply watch_outcome|].
  split; [exact Hbad|].
  split; [|split; [|split; [|split; [|split]]]].
  - intros request st st' H. pose proof (handled_once env request st) as Hh.
    rewrite H in Hh. destruct Hh as [chunk [Ho [Hl _]]]. eauto.
  - intros bad good st st' Hb Hg Hloads Hgood.
    assert (E1 : watch env [bad] st
                 = ([], set_streams Devnull Devnull
                          (write Stderr (format_exc env ValueError ++ newline)
                             (set_streams Devnull Stderr st)))).
    { rewrite watch_cons. destruct bad; [contradiction|]. cbn [Py.nonempty negb].
      rewrite Hbad by exact Hloads. reflexivity. }
    rewrite E1 in Hgood. cbn [snd] in Hgood. split.
    + rewrite watch_cons. destruct bad; [contradiction|]. cbn [Py.nonempty negb].
      rewrite Hbad by exact Hloads. rewrite watch_cons.
      destruct good; [contradiction|]. cbn [Py.nonempty negb].
      change (set_streams Devnull Devnull
                (write Stderr (format_exc env ValueError ++ newline)
                   (set_streams
                      (sys_stdout (set_streams Devnull Devnull st)) Stderr
                      (set_streams Devnull Devnull st))))
        with (set_streams Devnull Devnull
                (write Stderr (format_exc env ValueError ++ newline)
                   (set_streams Devnull Stderr st))).
      rewrite Hgood. reflexivity.
    + pose proof (handled_once env good
                    (write Stderr (format_exc env ValueError ++ newline)
                       (set_streams Devnull Stderr st))) as Hh.
      rewrite Hgood in Hh. destruct Hh as [chunk [Ho [Hl He]]].
      exists chunk. split; [exact Ho|]. split; [exact Hl | exact He].
  - intros lines st H. apply watch_turns, H.
  - intros request st e st1 H. apply turn_raise, H.
  - intros request st st1 H. apply turn_ok, H.
  - intros failing good rest st e st1 st' Hf Hg Hfail Hgood.
    destruct (turn_raise env st failing e st1 Hfail) as [Et [Ho He]].
    destruct (turn_ok env (turn env st failing) good st' Hgood)
      as [Eg [chunk [Hc [Hl Hs]]]].
    split; [|split].
    + rewrite watch_cons. destruct failing; [contradiction|]. cbn [Py.nonempty negb].
      rewrite Hfail. rewrite <- Et. rewrite watch_cons.
      destruct good; [contradiction|]. cbn [Py.nonempty negb].
      rewrite Hgood. reflexivity.
    + rewrite watch_turns by (repeat constructor; assumption).
      cbn [fold_left]. rewrite Eg. reflexivity.
    + exists chunk. rewrite Hc, Hs, Ho, He. auto.
Qed.

Lemma watch_contains_failures_witness :
  let env := Sample.env_of Sample.quiet [Sample.request_B] in
  let bad := "{not json" ++ newline in
  let good := Sample.line_of Sample.request_B in
  let st := __init__ Sample.boot in
  let st' := snd (_process_request env good (snd (watch env [bad] st))) in
  let stale :=
    Sample.env_of Sample.stale [More.wanted_definitions; More.wanted_arguments] in
  let failing := Sample.line_of More.wanted_definitions in
  let answered_line := Sample.line_of More.wanted_arguments in
  let st2 :=
    snd (_process_request stale answered_line
           (set_streams Devnull Devnull (turn stale st failing))) in
  (fst (watch env [bad; good] st) = []
   /\ exists out err,
        stdout_data (snd (watch env [bad; good] st)) = (stdout_data st ++ out)%list
        /\ stderr_data (snd (watch env [bad; good] st)) = (stderr_data st ++ err)%list
        /\ (length out + length err = 2)%nat
        /\ Forall response_line out
        /\ Forall (fun chunk => exists e, chunk = format_exc env e ++ newline) err)
  /\ (watch env [bad; good] st = ([], set_streams Devnull Devnull st')
      /\ exists chunk,
           stdout_data st' = (stdout_data st ++ [chunk])%list
           /\ response_line chunk
           /\ stderr_data st'
              = (stderr_data st ++ [(format_exc env ValueError ++ newline)%string])%list)
  /\ (watch stale [failing; answered_line] st = ([], set_streams Devnull Devnull st2)
      /\ exists chunk,
           stdout_data st2 = (stdout_data st ++ [chunk])%list
           /\ response_line chunk
           /\ stderr_data st2
              = (stderr_data st ++ [(format_exc stale KeyError ++ newline)%string])%list).
Proof.
  intros env bad good st st' stale failing answered_line st2. split; [|split].
  - apply (proj1 (watch_contains_failures env) [bad; good] st).
    repeat constructor; discriminate.
  - apply (proj1 (proj2 (proj2 (proj2 (watch_contains_failures env)))) bad good st st').
    + discriminate.
    + discriminate.
    + reflexivity.
    + vm_compute. reflexivity.
  - destruct (watch_contains_failures stale) as [_ [_ [_ [_ [_ [_ [_ H]]]]]]].
    refine (proj2 (H failing answered_line [] st KeyError
                     (snd (_process_request stale failing
                             (set_streams Devnull Devnull st)))
                     st2 _ _ _ _)).
    + discriminate.
    + discriminate.
    + vm_compute. reflexivity.
    + vm_compute. reflexivity.
Defined.

(** * Further properties of the code *)

(** ** [_get_top_level_module] *)

(** The equation of the source, free of fuel. *)
Lemma get_top_level_module_unfold env path :
  _get_top_level_module env path =
  if negb (String.eqb (OsPath.split_head path) path)
     && isfile env (OsPath.join (OsPath.split_head path) "__init__.py")
  then _get_top_level_module env (OsPath.split_head path)
  else path.
Proof.
  destruct (String.eqb_spec (OsPath.split_head path) path) as [E|N]; cbn [negb andb].
  - unfold _get_top_level_module.
    destruct (String.length path); cbn [top_level_module_from]; [reflexivity|].
    rewrite E, String.eqb_refl. reflexivity.
  - pose proof (split_head_shorter path N) as Hlt.
    unfold _get_top_level_module at 1.
    destruct (String.length path) as [|n] eqn:El; [lia|].
    cbn [top_level_module_from].
    destruct (String.eqb_spec (OsPath.split_head path) path); [contradiction|].
    cbn [negb andb].
    destruct (isfile env (OsPath.join (OsPath.split_head path) "__init__.py"));
      [|reflexivity].
    replace n with (String.length (OsPath.split_head path)
                    + (n - String.length (OsPath.split_head path)))%nat by lia.
    apply get_top_level_module_total.
Qed.

Lemma top_level_module_from_topmost env : forall fuel path,
  (String.length path <= fuel)%nat ->
  let r := top_level_module_from env fuel path in
  prefix r path = true
  /\ (OsPath.split_head r = r
      \/ isfile env (OsPath.join (OsPath.split_head r) "__init__.py") = false).
Proof.
  induction fuel as [|fuel IH]; intros path Hlen.
  - destruct path; [|simpl in Hlen; lia]. simpl. auto.
  - cbn [top_level_module_from].
    destruct (String.eqb_spec (OsPath.split_head path) path) as [E|N]; cbn [negb andb].
    + split; [apply prefix_same | auto].
    + destruct (isfile env (OsPath.join (OsPath.split_head path) "__init__.py")) eqn:Ef.
      * pose proof (split_head_shorter path N) as Hlt.
        destruct (IH (OsPath.split_head path)) as [Hp Ht]; [lia|].
        split; [|exact Ht].
        eapply prefix_trans; [exact Hp|].
        unfold OsPath.split_head.
        destruct (Py.nonempty (OsPath.upto_last_sep path)
                  && negb (Py.forall_chars OsPath.is_sep (OsPath.upto_last_sep path))).
        -- eapply prefix_trans; [apply rstrip_sep_prefix | apply upto_last_sep_prefix].
        -- apply upto_last_sep_prefix.
      * split; [apply prefix_same | auto].
Qed.


(** X2: resolving the root of a root gives the same root, and a path whose
    directory holds no [__init__.py] is its own root. *)
Theorem top_level_module_idempotent (env : Env) (path : string) :
  _get_top_level_module env (_get_top_level_module env path)
  = _get_top_level_module env path
  /\ (isfile env (OsPath.join (OsPath.split_head path) "__init__.py") = false ->
      _get_top_level_module env path = path).
Proof.
  split.
  - rewrite (get_top_level_module_unfold env (_get_top_level_module env path)).
    destruct (top_level_module_from_topmost env (String.length path) path (le_n _))
      as [_ [E|E]]; fold (_get_top_level_module env path) in E.
    + rewrite E, String.eqb_refl. reflexivity.
    + rewrite E, andb_false_r. reflexivity.
  - intros H. rewrite get_top_level_module_unfold, H, andb_false_r. reflexivity.
Qed.

Lemma top_level_module_idempotent_witness :
  _get_top_level_module More.env_packaged "/w/other/mod.py" = "/w/other/mod.py"
  /\ _get_top_level_module More.env_packaged "/w/pkg/sub/mod.py" = "/w/pkg".
Proof.
  split.
  - apply (proj2 (top_level_module_idempotent More.env_packaged "/w/other/mod.py")).
    reflexivity.
  - reflexivity.
Defined.

(** ** [_additional_info] *)

Lemma remove_char_free c s : free_of c (Py.remove_char c s).
Proof.
  unfold free_of. induction s as [|a s IH]; simpl; [reflexivity|].
  destruct (Ascii.eqb a c) eqn:E; [exact IH|]. simpl. rewrite E. exact IH.
Qed.

(** X3: the right-hand annotation text holds no newline, and it is empty
    for every candidate that is not a statement and for every candidate
    without a definition node. *)
Theorem additional_info_one_line (c : Candidate) :
  free_of "010" (_additional_info c)
  /\ (type c <> "statement" -> _additional_info c = EmptyString)
  /\ (_definition c = None -> _additional_info c = EmptyString).
Proof.
  unfold _additional_info. split; [|split].
  - destruct (_definition c); [|reflexivity].
    destruct (String.eqb (type c) "statement"); [|reflexivity].
    apply remove_char_free.
  - intros H. destruct (_definition c); [|reflexivity].
    destruct (String.eqb_spec (type c) "statement"); [contradiction | reflexivity].
  - intros ->. reflexivity.
Qed.

Lemma additional_info_one_line_witness :
  _additional_info Sample.origin_c = EmptyString.
Proof.
  apply (proj1 (proj2 (additional_info_one_line Sample.origin_c))). discriminate.
Defined.

(** ** [_get_call_signatures] *)

Lemma split_nonempty sep s : Py.split sep s <> [].
Proof.
  destruct s as [|c s]; simpl; [discriminate|].
  destruct (Ascii.eqb c sep); [discriminate|].
  destruct (Py.split sep s); discriminate.
Qed.

(** Joining the parts of a split with the separator gives the string back,
    and no part holds the separator. *)
Lemma split_join sep : forall s,
  Forall (free_of sep) (Py.split sep s)
  /\ Py.join (String sep EmptyString) (Py.split sep s) = s.
Proof.
  induction s as [|c s [IHf IHj]]; [split; [repeat constructor | reflexivity]|].
  cbn [Py.split]. destruct (Ascii.eqb c sep) eqn:E.
  - apply Ascii.eqb_eq in E. subst c. split; [constructor; [reflexivity | exact IHf]|].
    unfold Py.join in *. pose proof (split_nonempty sep s) as Hn.
    destruct (Py.split sep s) as [|h t]; [contradiction|].
    change (String.concat (String sep EmptyString) (EmptyString :: h :: t))
      with (EmptyString ++ String sep EmptyString
            ++ String.concat (String sep EmptyString) (h :: t)).
    rewrite IHj. reflexivity.
  - pose proof (split_nonempty sep s) as Hn.
    destruct (Py.split sep s) as [|h t]; [contradiction|].
    apply Forall_cons_iff in IHf. destruct IHf as [Hh Ht]. split.
    + constructor; [|exact Ht]. unfold free_of in *. simpl. rewrite E. exact Hh.
    + unfold Py.join in *. destruct t as [|h' t].
      * simpl in *. congruence.
      * change (String.concat (String sep EmptyString) (String c h :: h' :: t))
          with (String c (h ++ String sep EmptyString
                          ++ String.concat (String sep EmptyString) (h' :: t))).
        change (String.concat (String sep EmptyString) (h :: h' :: t))
          with (h ++ String sep EmptyString
                ++ String.concat (String sep EmptyString) (h' :: t)) in IHj.
        rewrite IHj. reflexivity.
Qed.

Lemma split_two sep s a b :
  Py.split sep s = [a; b] ->
  s = a ++ String sep b /\ free_of sep a /\ free_of sep b.
Proof.
  intros H. destruct (split_join sep s) as [Hf Hj]. rewrite H in Hf, Hj.
  apply Forall_cons_iff in Hf. destruct Hf as [Ha Hb'].
  apply Forall_cons_iff in Hb'. destruct Hb' as [Hb _].
  split; [|auto]. rewrite <- Hj. reflexivity.
Qed.

Lemma signature_params_tuples signature all : forall ps pos,
  params signature = Some all -> incl ps all ->
  Forall well_formed_tuple (signature_params signature pos ps).
Proof.
  induction ps as [|param ps IH]; intros pos Hall Hincl; [constructor|].
  assert (Hrest : Forall well_formed_tuple (signature_params signature (S pos) ps)).
  { apply IH; [exact Hall|]. intros x Hx. apply Hincl. right. exact Hx. }
  cbn [signature_params].
  destruct (Py.nonempty (param_name param)) eqn:Hne; cbn [negb]; [|exact Hrest].
  destruct (String.eqb (param_name param) "self" && (pos =? 0)%nat); [exact Hrest|].
  destruct (Py.WORD_RE_match (param_name param)) eqn:Hw; cbn [negb]; [|exact Hrest].
  destruct (Py.split "=" (Py.re_sub_delete "param " (param_description param)))
    as [|a [|b [|c l]]] eqn:Hs.
  - destruct (Py.startswith _ "*") eqn:Hstar; [exact Hrest|].
    constructor; [|exact Hrest]. split; [exact Hstar|].
    exists all, param. cbn. repeat split; auto. apply Hincl. left. reflexivity.
  - destruct (Py.startswith _ "*") eqn:Hstar; [exact Hrest|].
    constructor; [|exact Hrest]. split; [exact Hstar|].
    exists all, param. cbn. repeat split; auto. apply Hincl. left. reflexivity.
  - destruct (Py.startswith a "*") eqn:Hstar; [exact Hrest|].
    constructor; [|exact Hrest]. split; [exact Hstar|].
    destruct (split_two _ _ _ _ Hs) as [E [Ha Hb]].
    exists all, param. cbn. repeat split; auto. apply Hincl. left. reflexivity.
  - destruct (Py.startswith _ "*") eqn:Hstar; [exact Hrest|].
    constructor; [|exact Hrest]. split; [exact Hstar|].
    exists all, param. cbn. repeat split; auto. apply Hincl. left. reflexivity.
Qed.

Lemma signatures_loop_tuples cs : forall sigs,
  signatures_loop cs = Ok sigs -> Forall well_formed_tuple sigs.
Proof.
  induction cs as [|signature rest IH]; intros sigs H.
  - injection H as <-. constructor.
  - cbn [signatures_loop] in H.
    destruct (params signature) as [ps|] eqn:Hp; [|discriminate].
    apply rbind_ok in H. destruct H as [more [Hm H]]. injection H as <-.
    apply Forall_app. split; [|apply IH, Hm].
    eapply signature_params_tuples; [exact Hp | apply incl_refl].
Qed.

(** X4: every tuple [_get_call_signatures] returns comes from a named
    parameter of one of the signatures; its name does not start with a
    star; when it has a value, name and value are the two sides of the one
    equals sign of the description (with the word param removed), and
    neither holds an equals sign; when it has none, the name is the whole
    description. *)
Theorem call_signature_tuples (env : Env) (self : State) (script : Script)
    (sigs : list (Candidate * string * option string))
    (Hsigs : _get_call_signatures env self script = Ok sigs) :
  Forall well_formed_tuple sigs.
Proof.
  unfold _get_call_signatures in Hsigs.
  apply rbind_ok in Hsigs. destruct Hsigs as [cs [_ H]].
  apply signatures_loop_tuples with cs. exact H.
Qed.

Lemma call_signature_tuples_witness :
  Forall well_formed_tuple
    [(More.init_sig, "size", None); (More.init_sig, "color", Some "'red'")].
Proof.
  apply (call_signature_tuples (Sample.env_of More.signing []) More.ready
           Sample.a_script).
  reflexivity.
Defined.

(** X5: the guard of the engine queries is for the missing key only:
    [_get_call_signatures] returns no tuple when the signature query raises
    [KeyError], and every other exception of a guarded query is raised on:
    it fails the arguments, completions and methods lookups, and no
    response is written. *)
Theorem call_signatures_failsafe (env : Env) (self : State) (script : Script) :
  (get_signatures (jedi env) (settings self) script = Raise KeyError ->
   _get_call_signatures env self script = Ok [])
  /\ (forall e, e <> KeyError ->
        (get_signatures (jedi env) (settings self) script = Raise e ->
         _get_call_signatures env self script = Raise e
         /\ (forall identifier,
               _serialize_arguments env self script identifier = Raise e)
         /\ (forall identifier prefix,
               _serialize_completions env self script identifier prefix = Raise e))
        /\ (completions (jedi env) (settings self) script = Raise e ->
            forall identifier prefix,
              _serialize_methods env self script identifier prefix = Raise e)
        /\ (forall sigs args prefix identifier,
              _get_call_signatures env self script = Ok sigs ->
              arguments_loop self prefix sigs = Ok args ->
              complete (jedi env) (settings self) script = Raise e ->
              _serialize_completions env self script identifier prefix = Raise e)).
Proof.
  split.
  - unfold _get_call_signatures. intros ->. reflexivity.
  - intros e Hne. split; [|split].
    + intros Hs.
      assert (E : _get_call_signatures env self script = Raise e).
      { unfold _get_call_signatures. rewrite Hs.
        destruct e; try reflexivity. contradiction. }
      split; [exact E|]. split; intros.
      * unfold _serialize_arguments. rewrite E. reflexivity.
      * unfold _serialize_completions. rewrite E. reflexivity.
    + intros Hc identifier prefix. unfold _serialize_methods. rewrite Hc.
      destruct e; try reflexivity. contradiction.
    + intros sigs args prefix identifier Hs Ha Hc.
      unfold _serialize_completions. rewrite Hs. cbn [rbind]. rewrite Ha. cbn [rbind].
      rewrite Hc. destruct e; try reflexivity. contradiction.
Qed.

Lemma call_signatures_failsafe_witness :
  _get_call_signatures (Sample.env_of Sample.stale []) More.ready Sample.a_script
  = Ok []
  /\ _serialize_methods (Sample.env_of (More.failing TypeError) []) More.ready
       Sample.a_script (JInt 1) JNull
     = Raise TypeError.
Proof.
  split.
  - apply (proj1 (call_signatures_failsafe (Sample.env_of Sample.stale []) More.ready
                    Sample.a_script)).
    reflexivity.
  - apply (proj1 (proj2 (proj2 (call_signatures_failsafe
                                  (Sample.env_of (More.failing TypeError) [])
                                  More.ready Sample.a_script) TypeError
                           ltac:(discriminate)))).
    reflexivity.
Defined.

(** ** The argument entries of [_serialize_completions] *)

(** X6: with the fuzzy matcher off and a prefix that is a string, the
    argument entries are those of the parameters whose name starts with the
    prefix, case ignored, in the order of the signatures. *)
Theorem arguments_filtered_by_prefix (self : State) (p : string)
    (sigs : list (Candidate * string * option string))
    (Hfuzzy : Json.truthy (fuzzy_matcher self) = false) :
  arguments_loop self (JStr p) sigs
  = Ok (map (sig_entry self) (filter (matches_prefix p) sigs)).
Proof.
  induction sigs as [|[[signature n] value] rest IH]; [reflexivity|].
  cbn [arguments_loop]. rewrite Hfuzzy. cbn [negb rbind]. rewrite IH. cbn [rbind].
  cbn [filter]. unfold matches_prefix. cbn [fst snd].
  destruct (Py.startswith (Py.lower n) (Py.lower p)); reflexivity.
Qed.

Lemma arguments_filtered_by_prefix_witness :
  arguments_loop More.ready (JStr "Co")
    [(More.init_sig, "size", None); (More.init_sig, "color", Some "'red'")]
  = Ok [argument_entry More.ready More.init_sig "color" (Some "'red'")].
Proof.
  apply (arguments_filtered_by_prefix More.ready "Co"
           [(More.init_sig, "size", None); (More.init_sig, "color", Some "'red'")]).
  reflexivity.
Defined.

(** X7: the prefix is looked at only when the fuzzy matcher is off and a
    parameter is there: with the fuzzy matcher on every parameter gets its
    entry whatever the prefix is, and with it off a prefix that is not a
    string raises [AttributeError] as soon as there is one parameter. *)
Theorem prefix_inspected_when_not_fuzzy (self : State) (prefix : json)
    (sigs : list (Candidate * string * option string)) :
  (Json.truthy (fuzzy_matcher self) = true ->
   arguments_loop self prefix sigs = Ok (map (sig_entry self) sigs))
  /\ (Json.truthy (fuzzy_matcher self) = false ->
      (forall p, prefix <> JStr p) ->
      sigs <> [] ->
      arguments_loop self prefix sigs = Raise AttributeError)
  /\ arguments_loop self prefix [] = Ok [].
Proof.
  split; [|split; [|reflexivity]].
  - intros Hf. induction sigs as [|[[signature n] value] rest IH]; [reflexivity|].
    cbn [arguments_loop]. rewrite Hf. cbn [negb rbind]. rewrite IH. reflexivity.
  - intros Hf Hp Hne. destruct sigs as [|[[signature n] value] rest]; [contradiction|].
    cbn [arguments_loop]. rewrite Hf. cbn [negb].
    destruct prefix; try reflexivity. exfalso. eapply Hp. reflexivity.
Qed.

Lemma prefix_inspected_when_not_fuzzy_witness :
  arguments_loop More.ready JNull [(More.init_sig, "size", None)]
  = Raise AttributeError.
Proof.
  apply (proj1 (proj2 (prefix_inspected_when_not_fuzzy More.ready JNull
                         [(More.init_sig, "size", None)]))).
  - reflexivity.
  - discriminate.
  - discriminate.
Defined.

(** ** [_serialize_methods] *)

Lemma methods_loop_members instance cs : forall res,
  methods_loop instance cs = Ok res ->
  map (entry_field "name") res
  = map (fun c => Some (JStr (name c))) (filter class_member cs)
  /\ Forall (fun e => entry_field "instance" e = Some (JStr instance)) res.
Proof.
  induction cs as [|c rest IH]; intros res H.
  - injection H as <-. split; [reflexivity | constructor].
  - cbn [methods_loop] in H. cbn [filter]. unfold class_member at 1.
    destruct (parent c) as [p|]; [|discriminate].
    apply rbind_ok in H. destruct H as [l [Hl H]].
    destruct (IH l Hl) as [Hn Hi].
    destruct (String.eqb (scope_type p) "class"); injection H as <-.
    + split; [cbn [map]; rewrite Hn; reflexivity|].
      constructor; [reflexivity | exact Hi].
    + split; assumption.
Qed.

Lemma methods_loop_scopeless instance cs :
  (exists c, In c cs /\ parent c = None) ->
  methods_loop instance cs = Raise AttributeError.
Proof.
  induction cs as [|x rest IH]; intros [c [Hin Hp]]; [contradiction|].
  cbn [methods_loop]. destruct Hin as [->|Hin].
  - rewrite Hp. reflexivity.
  - destruct (parent x); [|reflexivity].
    rewrite IH by eauto. reflexivity.
Qed.

(** X8: the methods lookup reports the completions whose parent scope is a
    class, in order, each with the one [instance] value found for the
    request; and a single completion without a parent scope makes the whole
    serialization raise [AttributeError]. *)
Theorem methods_are_class_members (instance : string) (cs : list Candidate) :
  (forall res, methods_loop instance cs = Ok res ->
     map (entry_field "name") res
     = map (fun c => Some (JStr (name c))) (filter class_member cs)
     /\ Forall (fun e => entry_field "instance" e = Some (JStr instance)) res)
  /\ ((exists c, In c cs /\ parent c = None) ->
      methods_loop instance cs = Raise AttributeError).
Proof.
  split; [apply methods_loop_members | apply methods_loop_scopeless].
Qed.

Lemma methods_are_class_members_witness :
  methods_loop "self.__class__" [More.method "run" "Job" "class"; Sample.origin_c]
  = Raise AttributeError.
Proof.
  apply (proj2 (methods_are_class_members "self.__class__"
                  [More.method "run" "Job" "class"; Sample.origin_c])).
  exists Sample.origin_c. split; [right; left; reflexivity | reflexivity].
Defined.

(** X9: the [instance] of a methods response is [self.__class__] when no
    completion bears the sentinel name; otherwise it is the name of the
    parent scope of the first completion that bears it. *)
Theorem instance_from_sentinel (cs : list Candidate) :
  (Forall (fun c => name c <> sentinel) cs -> find_instance cs = Ok "self.__class__")
  /\ (forall pre c post p,
        cs = (pre ++ c :: post)%list ->
        Forall (fun x => name x <> sentinel) pre ->
        name c = sentinel -> parent c = Some p ->
        find_instance cs = Ok (scope_name p)).
Proof.
  assert (Hskip : forall pre rest, Forall (fun x => name x <> sentinel) pre ->
                    find_instance (pre ++ rest)%list = find_instance rest).
  { induction pre as [|x pre IH]; intros rest H; [reflexivity|].
    apply Forall_cons_iff in H. destruct H as [Hx Hpre].
    cbn [app find_instance].
    destruct (String.eqb_spec (name x) "__autocomplete_python") as [E|_];
      [contradiction | apply IH, Hpre]. }
  split.
  - intros H. rewrite <- (app_nil_r cs), (Hskip cs [] H). reflexivity.
  - intros pre c post p -> Hpre Hc Hp. rewrite (Hskip pre _ Hpre).
    cbn [find_instance]. unfold sentinel in Hc. rewrite Hc, String.eqb_refl, Hp.
    reflexivity.
Qed.

Lemma instance_from_sentinel_witness :
  find_instance [More.method "run" "Job" "class";
                 More.method "__autocomplete_python" "job" "instance";
                 More.method "__autocomplete_python" "other" "instance"]
  = Ok "job".
Proof.
  apply (proj2 (instance_from_sentinel _) [More.method "run" "Job" "class"]
           (More.method "__autocomplete_python" "job" "instance")
           [More.method "__autocomplete_python" "other" "instance"]
           {| scope_name := "job"; scope_type := "instance" |}).
  - reflexivity.
  - repeat constructor. discriminate.
  - reflexivity.
  - reflexivity.
Defined.

(** X10: when the completion query of a methods lookup fails on a missing
    key, the serializer returns a list, [_write_response] raises
    [TypeError] on it, and no response is written for the request. *)
Theorem stale_methods_lookup_raises (env : Env) (r : list (string * json))
    (script : Script) (st : State) (identifier : json)
    (Hid : getitem r "id" = Ok identifier)
    (Hlookup : Json.eq_str (Json.get r "lookup" (JStr "completions")) "methods" = true)
    (Hstale : completions (jedi env) (settings st) script = Raise KeyError) :
  dispatch env r script st = (Raise TypeError, set_streams Stdout (sys_stderr st) st)
  /\ same_output st (snd (dispatch env r script st)).
Proof.
  assert (E : dispatch env r script st
              = (Raise TypeError, set_streams Stdout (sys_stderr st) st)).
  { apply eq_str_true in Hlookup. unfold dispatch. rewrite Hlookup.
    cbn [Json.eq_str String.eqb Ascii.eqb Bool.eqb].
    unfold bind, lift. rewrite Hid. cbn [rbind].
    unfold _serialize_methods. rewrite Hstale. reflexivity. }
  split; [exact E|]. rewrite E. split; reflexivity.
Qed.

Lemma stale_methods_lookup_raises_witness :
  fst (dispatch (Sample.env_of Sample.stale [])
         [("id", JInt 3); ("lookup", JStr "methods")] Sample.a_script More.ready)
  = Raise TypeError.
Proof.
  rewrite (proj1 (stale_methods_lookup_raises (Sample.env_of Sample.stale [])
                    [("id", JInt 3); ("lookup", JStr "methods")] Sample.a_script
                    More.ready (JInt 3) eq_refl eq_refl eq_refl)).
  reflexivity.
Defined.

(** ** [_serialize_arguments] *)

(** X11: unless [useSnippets] is [all], the parameters with a default value
    count for nothing in the arguments snippet, not even in the numbering:
    the snippet is the one of the parameters without default. *)
Theorem defaults_need_all_snippets (self : State)
    (sigs : list (Candidate * string * option string))
    (Hnot_all : Json.eq_str (use_snippets self) "all" = false) :
  forall seen arguments i,
    snippet_arguments self seen arguments i sigs
    = snippet_arguments self seen arguments i
        (filter (fun sig => negb (has_value (snd sig))) sigs).
Proof.
  induction sigs as [|[[signature n] value] rest IH]; intros seen arguments i;
    [reflexivity|].
  cbn [filter snd]. destruct (has_value value) eqn:E; cbn [negb].
  - cbn [snippet_arguments]. rewrite E, Hnot_all. cbn [negb]. apply IH.
  - cbn [snippet_arguments]. rewrite E. cbn [negb].
    destruct (Py.mem n seen); apply IH.
Qed.

Lemma defaults_need_all_snippets_witness :
  snippet_arguments More.ready [] [] 1
    [(More.init_sig, "color", Some "'red'"); (More.init_sig, "size", None)]
  = snippet_arguments More.ready [] [] 1 [(More.init_sig, "size", None)].
Proof.
  apply (defaults_need_all_snippets More.ready
           [(More.init_sig, "color", Some "'red'"); (More.init_sig, "size", None)]).
  reflexivity.
Defined.

Lemma mem_In x l : Py.mem x l = true <-> In x l.
Proof.
  unfold Py.mem. rewrite existsb_exists. split.
  - intros [y [Hy E]]. apply String.eqb_eq in E. subst. exact Hy.
  - intros H. exists x. split; [exact H | apply String.eqb_refl].
Qed.

(** The names the loop of [_serialize_arguments] adds to [seen]: no name
    twice, none already seen, and with those seen they are the names of all
    the parameters that count. *)
Lemma snippet_arguments_names self sigs : forall seen arguments i,
  exists added names,
    snippet_arguments self seen arguments i sigs = (arguments ++ added)%list
    /\ length added = length names
    /\ NoDup names
    /\ (forall n, In n names ->
          ~ In n seen /\ In n (map sig_name (filter (counted self) sigs)))
    /\ (forall n, In n (map sig_name (filter (counted self) sigs)) ->
          In n seen \/ In n names).
Proof.
  induction sigs as [|[[signature n] value] rest IH]; intros seen arguments i.
  - exists [], []. cbn. rewrite app_nil_r. repeat split; try constructor; contradiction.
  - assert (Hkeep : forall arg j,
      counted self (signature, n, value) = true ->
      exists added names,
        (if Py.mem n seen
         then snippet_arguments self seen arguments j rest
         else snippet_arguments self (n :: seen) (arguments ++ [arg])%list j rest)
        = (arguments ++ added)%list
        /\ length added = length names /\ NoDup names
        /\ (forall m, In m names ->
              ~ In m seen
              /\ In m (map sig_name (filter (counted self) ((signature, n, value) :: rest))))
        /\ (forall m, In m (map sig_name
                              (filter (counted self) ((signature, n, value) :: rest))) ->
              In m seen \/ In m names)).
    { intros arg j Hc. cbn [filter]. rewrite Hc. cbn [map]. unfold sig_name at 1 3.
      cbn [fst snd]. destruct (Py.mem n seen) eqn:Hm.
      - apply mem_In in Hm.
        destruct (IH seen arguments j) as [added [names [H1 [H2 [H3 [H4 H5]]]]]].
        exists added, names. repeat split; auto.
        + apply H4. assumption.
        + right. apply H4. assumption.
        + intros m [<-|Hin]; [left; exact Hm | apply H5, Hin].
      - assert (Hn : ~ In n seen).
        { intros Hin. apply mem_In in Hin. congruence. }
        destruct (IH (n :: seen) (arguments ++ [arg])%list j)
          as [added [names [H1 [H2 [H3 [H4 H5]]]]]].
        exists (arg :: added), (n :: names). rewrite H1, <- app_assoc.
        repeat split; auto.
        + cbn. rewrite H2. reflexivity.
        + constructor; [|exact H3]. intros Hin. apply H4 in Hin.
          apply (proj1 Hin). left. reflexivity.
        + destruct H as [<-|Hin]; [exact Hn|].
          intros Hs. apply (proj1 (H4 _ Hin)). right. exact Hs.
        + destruct H as [<-|Hin]; [left; reflexivity | right; apply H4, Hin].
        + intros m [<-|Hin]; [right; left; reflexivity|].
          destruct (H5 _ Hin) as [[<-|Hs]|Hs]; [right; left; reflexivity | auto |].
          right. right. exact Hs. }
    cbn [snippet_arguments].
    destruct (has_value value) eqn:Hv; cbn [negb].
    + destruct (Json.eq_str (use_snippets self) "all") eqn:Ha.
      * apply Hkeep. unfold counted. cbn [snd]. rewrite Hv, Ha. reflexivity.
      * destruct (IH seen arguments i) as [added [names [H1 [H2 [H3 [H4 H5]]]]]].
        assert (Hc : counted self (signature, n, value) = false).
        { unfold counted. cbn [snd]. rewrite Hv, Ha. reflexivity. }
        exists added, names. cbn [filter]. rewrite Hc.
        repeat split; auto; apply H4; assumption.
    + apply Hkeep. unfold counted. cbn [snd]. rewrite Hv. reflexivity.
Qed.

(** X12: the arguments snippet holds exactly one argument for every
    distinct name among the parameters that count (those without default,
    or all of them when [useSnippets] is [all]): a name met again adds
    nothing. *)
Theorem arguments_once_per_name (self : State)
    (sigs : list (Candidate * string * option string)) :
  length (snippet_arguments self [] [] 1 sigs)
  = length (nodup string_dec (map sig_name (filter (counted self) sigs))).
Proof.
  destruct (snippet_arguments_names self sigs [] [] 1)
    as [added [names [H1 [H2 [H3 [H4 H5]]]]]].
  rewrite H1. cbn [app]. rewrite H2. apply Nat.le_antisymm.
  - apply NoDup_incl_length; [exact H3|].
    intros n Hn. apply nodup_In. apply H4, Hn.
  - apply NoDup_incl_length; [apply NoDup_nodup|].
    intros n Hn. apply nodup_In in Hn. destruct (H5 n Hn) as [[]|Hin]. exact Hin.
Qed.

(** ** The general completions of [_serialize_completions] *)

Lemma split_head_free sep s : free_of sep s -> Py.split_head sep s = s.
Proof.
  unfold Py.split_head, free_of. induction s as [|c s IH]; [reflexivity|].
  cbn [Py.forall_chars Py.split]. intros H. apply andb_true_iff in H.
  destruct H as [Hc Hs]. apply negb_true_iff in Hc. rewrite Hc.
  specialize (IH Hs). destruct (Py.split sep s) as [|h t];
    rewrite <- IH; reflexivity.
Qed.

(** X13: the general completions are deduplicated by name: when no name
    holds an equals sign, no two of the entries the second loop adds have
    the same text, and none has the text of an entry emitted before. *)
Theorem completions_names_once (self : State) (emitted : list json)
    (names : list Candidate)
    (Hfree : Forall (fun c => free_of "=" (name c)) names) :
  exists kept,
    completions_loop self emitted names = (emitted ++ kept)%list
    /\ NoDup (map entry_text kept)
    /\ forall e c, In e kept -> In c emitted ->
         Py.split_head "=" (entry_text c) <> entry_text e.
Proof.
  destruct (completions_loop_kept self names emitted) as [kept [Hk Hp]].
  exists kept. split; [exact Hk|].
  assert (Hnone : forall l1 e l2, kept = (l1 ++ e :: l2)%list ->
                    forall c, In c (emitted ++ l1)%list ->
                      Py.split_head "=" (entry_text c) <> entry_text e).
  { intros l1 e l2 E c Hin Heq. destruct (Hp _ _ _ E) as [Hn _].
    assert (Ht : already_have (emitted ++ l1)%list e = true).
    { apply already_have_collide. exists c. split; [exact Hin|].
      unfold collide. apply String.eqb_eq, Heq. }
    congruence. }
  assert (Htext : forall e, In e kept -> Py.split_head "=" (entry_text e) = entry_text e).
  { intros e Hin. apply in_split in Hin. destruct Hin as [l1 [l2 E]].
    destruct (Hp _ _ _ E) as [_ [c [Hc ->]]]. rewrite completion_entry_text.
    apply split_head_free. rewrite Forall_forall in Hfree. apply Hfree, Hc. }
  split.
  - clear Hk Hp. revert Hnone Htext. generalize emitted.
    induction kept as [|e kept IH]; intros acc Hnone Htext; [constructor|].
    cbn [map]. constructor.
    + intros Hin. apply in_map_iff in Hin. destruct Hin as [x [Hx Hin]].
      apply in_split in Hin. destruct Hin as [l1 [l2 E]].
      apply (Hnone (e :: l1) x l2) with (c := e).
      * rewrite E. reflexivity.
      * apply in_or_app. right. left. reflexivity.
      * rewrite Htext by (left; reflexivity). symmetry. exact Hx.
    + apply (IH (acc ++ [e])%list).
      * intros l1 x l2 E c Hin. apply (Hnone (e :: l1) x l2); [rewrite E; reflexivity|].
        rewrite <- app_assoc in Hin. exact Hin.
      * intros x Hx. apply Htext. right. exact Hx.
  - intros e c He Hc. apply in_split in He. destruct He as [l1 [l2 E]].
    apply (Hnone l1 e l2 E). apply in_or_app. left. exact Hc.
Qed.

Lemma completions_names_once_witness :
  exists kept,
    completions_loop More.ready [] [Sample.name_count; Sample.origin_c; Sample.name_count]
    = ([] ++ kept)%list
    /\ NoDup (map entry_text kept)
    /\ forall e c, In e kept -> In c [] ->
         Py.split_head "=" (entry_text c) <> entry_text e.
Proof.
  apply (completions_names_once More.ready []
           [Sample.name_count; Sample.origin_c; Sample.name_count]).
  repeat constructor.
Defined.

(** ** [_serialize_definitions] and [_serialize_tooltip] *)

Lemma resolved_not_import env d :
  type d <> "import" ->
  resolved env d = Ok (if has_path (module_path d) then Some d else None).
Proof.
  intros Ht. unfold resolved. destruct (has_path (module_path d)) eqn:Hp; [|reflexivity].
  destruct (String.eqb_spec (type d) "import"); [contradiction|].
  cbn [rbind]. rewrite Hp. reflexivity.
Qed.

(** X14: when no candidate is an import, the definitions lookup never
    fails: the candidates without a module path are dropped in silence and
    the others are reported one by one, in order. *)
Theorem definitions_without_imports (env : Env) (defs : list Candidate)
    (Hplain : Forall (fun d => type d <> "import") defs) :
  definitions_loop env defs
  = Ok (map definition_entry (filter (fun d => has_path (module_path d)) defs)).
Proof.
  induction Hplain as [|d rest Hd _ IH]; [reflexivity|].
  rewrite definitions_loop_cons, (resolved_not_import env d Hd). cbn [rbind filter].
  destruct (has_path (module_path d)); rewrite IH; reflexivity.
Qed.

Lemma definitions_without_imports_witness :
  definitions_loop (Sample.env_of Sample.quiet [])
    [Sample.builtin_constant; Sample.origin_c; Sample.bare_def]
  = Ok [definition_entry Sample.origin_c; definition_entry Sample.bare_def].
Proof.
  apply (definitions_without_imports (Sample.env_of Sample.quiet [])
           [Sample.builtin_constant; Sample.origin_c; Sample.bare_def]).
  repeat constructor; discriminate.
Defined.

Lemma has_path_file p :
  has_path p = true -> exists f, Json.of_option p = JStr f /\ f <> EmptyString.
Proof.
  destruct p as [f|]; [|discriminate]. intros H. exists f. split; [reflexivity|].
  intros ->. discriminate.
Qed.

(** X15: every entry of a definitions response and of a tooltip response
    names a file: its [fileName] is a string that is not empty. *)
Theorem entries_name_a_file (env : Env) (defs : list Candidate)
    (res : list json)
    (Hres : definitions_loop env defs = Ok res \/ tooltip_loop env defs = Ok res) :
  Forall (fun e => exists f, entry_field "fileName" e = Some (JStr f)
                             /\ f <> EmptyString) res.
Proof.
  destruct Hres as [H|H].
  - eapply Forall_impl; [|apply (definitions_loop_entries _ _ _ H)].
    intros e [d0 [d [_ [Hr ->]]]].
    destruct (has_path_file _ (resolved_some _ _ _ Hr)) as [f [E Hf]].
    exists f. split; [|exact Hf]. cbn. rewrite E. reflexivity.
  - destruct (tooltip_loop_entries _ _ _ H) as [->|[d0 [d [_ [Hr ->]]]]];
      [constructor|].
    destruct (has_path_file _ (resolved_some _ _ _ Hr)) as [f [E Hf]].
    constructor; [|constructor]. exists f. split; [|exact Hf]. cbn. rewrite E.
    reflexivity.
Qed.

Lemma entries_name_a_file_witness :
  Forall (fun e => exists f, entry_field "fileName" e = Some (JStr f)
                             /\ f <> EmptyString)
    [tooltip_entry Sample.bare_def].
Proof.
  apply (entries_name_a_file (Sample.env_of Sample.quiet [])
           [Sample.builtin_constant; Sample.bare_def]).
  right. reflexivity.
Defined.

Lemma definitions_loop_app_raise env pre : forall d post e,
  Forall (fun x => exists r, resolved env x = Ok r) pre ->
  resolved env d = Raise e ->
  definitions_loop env (pre ++ d :: post)%list = Raise e.
Proof.
  induction pre as [|x pre IH]; intros d post e Hpre Hd.
  - cbn [app]. rewrite definitions_loop_cons, Hd. reflexivity.
  - apply Forall_cons_iff in Hpre. destruct Hpre as [[r Hx] Hpre].
    cbn [app]. rewrite definitions_loop_cons, Hx. cbn [rbind].
    rewrite (IH d post e Hpre Hd). destruct r; reflexivity.
Qed.

(** X16: one failing import resolution fails the whole lookup: when the
    resolution of a candidate raises, the definitions serialization raises
    the same exception whatever the other candidates are, and so does the
    tooltip serialization unless a candidate before it was resolved. *)
Theorem resolution_failure_fails_lookup (env : Env) (pre post : list Candidate)
    (d : Candidate) (e : exn) (identifier : json)
    (Hd : resolved env d = Raise e) :
  (Forall (fun x => exists r, resolved env x = Ok r) pre ->
   _serialize_definitions env (pre ++ d :: post)%list identifier = Raise e)
  /\ (Forall (fun x => resolved env x = Ok None) pre ->
      _serialize_tooltip env (pre ++ d :: post)%list identifier = Raise e).
Proof.
  split; intros Hpre.
  - unfold _serialize_definitions.
    rewrite (definitions_loop_app_raise env pre d post e Hpre Hd). reflexivity.
  - unfold _serialize_tooltip.
    rewrite (tooltip_loop_skips env pre (d :: post) Hpre), tooltip_loop_cons, Hd.
    reflexivity.
Qed.

Lemma cyclic_resolution_raises :
  resolved (Sample.env_of Sample.cyclic []) Sample.imp_a = Raise RecursionError.
Proof.
  unfold resolved.
  change (has_path (module_path Sample.imp_a)) with true.
  change (String.eqb (type Sample.imp_a) "import") with true.
  cbv iota. rewrite (proj1 (cyclic_never_returns _)). reflexivity.
Defined.

Lemma resolution_failure_fails_lookup_witness :
  _serialize_definitions (Sample.env_of Sample.cyclic [])
    [Sample.origin_c; Sample.imp_a; Sample.bare_def] (JInt 1)
  = Raise RecursionError.
Proof.
  apply (proj1 (resolution_failure_fails_lookup (Sample.env_of Sample.cyclic [])
                  [Sample.origin_c] [Sample.bare_def] Sample.imp_a RecursionError
                  (JInt 1) cyclic_resolution_raises)).
  constructor; [|constructor]. exists (Some Sample.origin_c). reflexivity.
Defined.

(** ** [_set_request_config] *)

Lemma extra_paths_loop_filter paths : forall st,
  extra_paths (extra_paths_loop paths st)
  = (extra_paths st ++ filter (wanted_extra_path (deref st (sys_path st))) paths)%list
  /\ heap (extra_paths_loop paths st) = heap st
  /\ sys_path (extra_paths_loop paths st) = sys_path st.
Proof.
  induction paths as [|p paths IH]; intros st.
  - cbn. rewrite app_nil_r. auto.
  - cbn [extra_paths_loop filter].
    change (Json.truthy p && negb (in_paths p (deref st (sys_path st))))
      with (wanted_extra_path (deref st (sys_path st)) p).
    destruct (wanted_extra_path (deref st (sys_path st)) p); [|apply IH].
    destruct (IH (set_extra_paths (extra_paths st ++ [p])%list st)) as [H1 [H2 H3]].
    rewrite H1, H2, H3. cbn. rewrite <- app_assoc. auto.
Qed.

(** X17: the extra paths a request config leaves for the engine are the
    entries of [extraPaths] that are true values and are not strings on
    [sys.path], in their order; an entry met twice is kept twice. *)
Theorem extra_paths_are_filtered (c : list (string * json)) (paths : list json)
    (st : State)
    (Hpaths : iterate (Json.get c "extraPaths" (JArr [])) = Ok paths) :
  extra_paths (snd (_set_request_config (JObj c) st))
  = filter (wanted_extra_path (deref st (default_sys_path st))) paths.
Proof.
  unfold _set_request_config, bind, modify, lift. cbn [fst snd].
  rewrite Hpaths. cbn [fst snd].
  match goal with |- context [extra_paths_loop paths ?s] =>
    destruct (extra_paths_loop_filter paths s) as [E _]; rewrite E
  end.
  reflexivity.
Qed.

Lemma extra_paths_are_filtered_witness :
  extra_paths (snd (_set_request_config
                      (JObj [("extraPaths",
                              JArr [JStr "/x"; JStr EmptyString; JStr "/usr/lib/python3";
                                    JStr "/x"])])
                      (__init__ Sample.boot)))
  = [JStr "/x"; JStr "/x"].
Proof.
  apply (extra_paths_are_filtered
           [("extraPaths", JArr [JStr "/x"; JStr EmptyString; JStr "/usr/lib/python3";
                                 JStr "/x"])]
           [JStr "/x"; JStr EmptyString; JStr "/usr/lib/python3"; JStr "/x"]
           (__init__ Sample.boot)).
  reflexivity.
Defined.

Lemma extra_paths_loop_flags paths : forall st,
  flags (extra_paths_loop paths st) = flags st.
Proof.
  induction paths as [|p paths IH]; intros st; [reflexivity|].
  cbn [extra_paths_loop].
  destruct (Json.truthy p && negb (in_paths p (deref st (sys_path st))));
    rewrite IH; reflexivity.
Qed.

(** X18: every request re-asserts the four flags: whatever the state the
    previous request left, after a config that is an object the snippet
    mode, the doc-string mode, the fuzzy mode and the case setting of the
    engine are the values of the config, with [None], [True], [False] and
    [True] for the keys it lacks; this holds even when [extraPaths] then
    fails to be iterated. *)
Theorem flags_come_from_config (c : list (string * json)) (st : State) :
  flags (snd (_set_request_config (JObj c) st))
  = (Json.get c "useSnippets" JNull,
     Json.get c "showDescriptions" (JBool true),
     Json.get c "fuzzyMatcher" (JBool false),
     Json.get c "caseInsensitiveCompletion" (JBool true)).
Proof.
  unfold _set_request_config, bind, modify, lift. cbn [fst snd].
  destruct (iterate (Json.get c "extraPaths" (JArr []))) as [paths|e]; cbn [fst snd].
  - rewrite extra_paths_loop_flags. reflexivity.
  - reflexivity.
Qed.

(** X19: a config that is not an object raises [AttributeError], after
    [sys.path] was bound to the baseline and before anything else is set,
    and the request that carries it is left there, with no response; an
    [extraPaths] that cannot be iterated (null, a boolean, a number) raises
    [TypeError], with no extra path left for the engine. *)
Theorem bad_config_raises (config : json) (st : State) :
  ((forall c, config <> JObj c) ->
   _set_request_config config st
   = (Raise AttributeError, set_sys_path (default_sys_path st) st)
   /\ forall env request r,
        json_loads env request = Some (JObj r) ->
        Json.lookup "config" r = Some config ->
        _process_request env request st
        = (Raise AttributeError, set_sys_path (default_sys_path st) st))
  /\ (forall c, config = JObj c ->
        iterate (Json.get c "extraPaths" (JArr [])) = Raise TypeError ->
        fst (_set_request_config config st) = Raise TypeError
        /\ extra_paths (snd (_set_request_config config st)) = []).
Proof.
  split.
  - intros H.
    assert (E : _set_request_config config st
                = (Raise AttributeError, set_sys_path (default_sys_path st) st)).
    { destruct config; try reflexivity. exfalso. eapply H. reflexivity. }
    split; [exact E|].
    intros env request r Hr Hc.
    unfold _process_request, open_script, bind, lift, _deserialize.
    rewrite Hr. cbn [fst snd]. unfold Json.get. rewrite Hc, E. reflexivity.
  - intros c -> Hi. unfold _set_request_config, bind, modify, lift. cbn [fst snd].
    rewrite Hi. split; reflexivity.
Qed.

Lemma bad_config_raises_witness :
  fst (_set_request_config (JObj [("extraPaths", JInt 3)]) (__init__ Sample.boot))
  = Raise TypeError
  /\ fst (_set_request_config (JArr []) (__init__ Sample.boot)) = Raise AttributeError.
Proof.
  split.
  - apply (proj2 (bad_config_raises (JObj [("extraPaths", JInt 3)])
                    (__init__ Sample.boot)) [("extraPaths", JInt 3)]); reflexivity.
  - rewrite (proj1 (proj1 (bad_config_raises (JArr []) (__init__ Sample.boot))
                      ltac:(discriminate))).
    reflexivity.
Defined.

(** ** [_process_request] *)

Lemma serialized_with_id {A : Type} (c : result A) (identifier : json)
    (k : A -> list (string * json)) (s : string) :
  rbind c (fun a => Ok (Json.dumps (JObj (("id", identifier) :: k a)))) = Ok s ->
  exists rest, s = Json.dumps (JObj (("id", identifier) :: rest)).
Proof.
  destruct c as [a|e]; [|discriminate]. intros H. exists (k a).
  injection H as <-. reflexivity.
Qed.

Lemma write_response_ok o st st' :
  _write_response o st = (Ok tt, st') ->
  exists s, o = PyStr s /\ st' = answered s st.
Proof.
  destruct o as [s|l]; cbn; intros H; [|discriminate].
  exists s. split; [reflexivity|]. injection H as <-. reflexivity.
Qed.

Lemma dispatch_ok_has_id (env : Env) (r : list (string * json))
    (script : Script) (st st' : State)
    (Hdone : dispatch env r script st = (Ok tt, st')) :
  exists identifier rest,
    getitem r "id" = Ok identifier
    /\ st' = answered (Json.dumps (JObj (("id", identifier) :: rest))) st.
Proof.
  assert (Hgen : forall f : State -> result pyobj,
             bind (lift f) _write_response st = (Ok tt, st') ->
             (forall s, f st = Ok (PyStr s) ->
                exists identifier rest,
                  getitem r "id" = Ok identifier
                  /\ s = Json.dumps (JObj (("id", identifier) :: rest))) ->
             exists identifier rest,
               getitem r "id" = Ok identifier
               /\ st' = answered (Json.dumps (JObj (("id", identifier) :: rest))) st).
  { intros f H Hf. unfold bind, lift in H. destruct (f st) as [o|e] eqn:E;
      [|discriminate].
    apply write_response_ok in H. destruct H as [s [-> ->]].
    destruct (Hf s eq_refl) as [identifier [rest [Hid ->]]]. eauto. }
  unfold dispatch in Hdone.
  repeat match type of Hdone with
         | context [if ?b then _ else _] => destruct b
         end;
    apply (Hgen _ Hdone); intros s H.
  - apply rbind_ok in H. destruct H as [ds [_ H]].
    apply rbind_ok in H. destruct H as [identifier [Hid H]].
    apply rbind_ok in H. destruct H as [s0 [Hs H]]. injection H as <-.
    unfold _serialize_definitions, response in Hs.
    apply serialized_with_id with (k := fun l => [("results", JArr l)]) in Hs.
    destruct Hs as [rest ->]. eauto.
  - apply rbind_ok in H. destruct H as [ds [_ H]].
    apply rbind_ok in H. destruct H as [identifier [Hid H]].
    apply rbind_ok in H. destruct H as [s0 [Hs H]]. injection H as <-.
    unfold _serialize_tooltip, response in Hs.
    apply serialized_with_id with (k := fun l => [("results", JArr l)]) in Hs.
    destruct Hs as [rest ->]. eauto.
  - apply rbind_ok in H. destruct H as [identifier [Hid H]].
    apply rbind_ok in H. destruct H as [s0 [Hs H]]. injection H as <-.
    unfold _serialize_arguments in Hs.
    apply serialized_with_id
      with (k := fun sigs =>
                   [("results", JArr []);
                    ("arguments",
                     JStr (Py.join ", " (snippet_arguments st [] [] 1 sigs) ++ "$0"))])
      in Hs.
    destruct Hs as [rest ->]. eauto.
  - apply rbind_ok in H. destruct H as [found [_ H]].
    apply rbind_ok in H. destruct H as [identifier [Hid H]]. injection H as <-.
    exists identifier, [("results", JArr (map usage_entry found))]. auto.
  - apply rbind_ok in H. destruct H as [identifier [Hid H]].
    unfold _serialize_methods in H.
    destruct (completions (jedi env) (settings st) script) as [cs|[]];
      try discriminate.
    apply rbind_ok in H. destruct H as [instance [_ H]].
    destruct (methods_loop instance cs) as [l|e]; [|discriminate].
    injection H as <-. exists identifier, [("results", JArr l)]. auto.
  - apply rbind_ok in H. destruct H as [identifier [Hid H]].
    apply rbind_ok in H. destruct H as [s0 [Hs H]]. injection H as <-.
    unfold _serialize_completions in Hs.
    apply rbind_ok in Hs. destruct Hs as [sigs [_ Hs]].
    apply rbind_ok in Hs. destruct Hs as [args [_ Hs]].
    unfold response in Hs.
    apply serialized_with_id
      with (k := fun cs => [("results", JArr (completions_loop st args cs))]) in Hs.
    destruct Hs as [rest ->]. eauto.
Qed.

(** X20: the id is echoed: whenever the branch on [lookup] writes a
    response, whatever the lookup kind, the request has an [id], and the one
    line added to the output is the encoding of an object whose first field
    is [id], with the value of the request. *)
Theorem response_echoes_id (env : Env) (r : list (string * json))
    (script : Script) (st st' : State)
    (Hdone : dispatch env r script st = (Ok tt, st')) :
  exists identifier rest,
    getitem r "id" = Ok identifier
    /\ st' = answered (Json.dumps (JObj (("id", identifier) :: rest))) st
    /\ stdout_data st'
       = (stdout_data st
          ++ [(Json.dumps (JObj (("id", identifier) :: rest)) ++ newline)%string])%list.
Proof.
  destruct (dispatch_ok_has_id env r script st st' Hdone) as [identifier [rest [Hid E]]].
  exists identifier, rest. split; [exact Hid|]. split; [exact E|].
  rewrite E. reflexivity.
Qed.

Lemma response_echoes_id_witness :
  exists identifier rest,
    getitem [("id", JStr "q-17"); ("lookup", JStr "usages")] "id" = Ok identifier
    /\ answered (Json.dumps (response (JStr "q-17") [usage_entry Sample.origin_c]))
         More.ready
       = answered (Json.dumps (JObj (("id", identifier) :: rest))) More.ready.
Proof.
  destruct (response_echoes_id (Sample.env_of More.signing [])
              [("id", JStr "q-17"); ("lookup", JStr "usages")] Sample.a_script
              More.ready
              (answered (Json.dumps (response (JStr "q-17")
                                       [usage_entry Sample.origin_c])) More.ready)
              eq_refl) as [identifier [rest [Hid [E _]]]].
  exists identifier, rest. split; [exact Hid | exact E].
Defined.

(** X21: a request without [id] gets no response, whatever its lookup
    kind and whatever the engine answers: the branch on [lookup] raises and
    writes nothing. *)
Theorem no_id_no_response (env : Env) (r : list (string * json))
    (script : Script) (st : State)
    (Hnone : Json.lookup "id" r = None) :
  exists e st', dispatch env r script st = (Raise e, st') /\ same_output st st'.
Proof.
  pose proof (dispatch_outcome env r script st) as Ho.
  destruct (dispatch env r script st) as [[[]|e] st'] eqn:E.
  - destruct (dispatch_ok_has_id env r script st st' E) as [identifier [rest [Hid _]]].
    unfold getitem in Hid. rewrite Hnone in Hid. discriminate.
  - exists e, st'. auto.
Qed.

Lemma no_id_no_response_witness :
  exists e st',
    dispatch (Sample.env_of More.signing []) [("lookup", JStr "usages")]
      Sample.a_script More.ready = (Raise e, st')
    /\ same_output More.ready st'.
Proof.
  apply (no_id_no_response (Sample.env_of More.signing []) [("lookup", JStr "usages")]
           Sample.a_script More.ready).
  reflexivity.
Defined.

(** X22: a line that decodes to a value that is not an object (a list, a
    string, a number, null) raises [AttributeError] before the state is
    touched. *)
Theorem non_object_request_raises (env : Env) (request : string) (j : json)
    (st : State)
    (Hdecoded : json_loads env request = Some j)
    (Hother : forall r, j <> JObj r) :
  _process_request env request st = (Raise AttributeError, st).
Proof.
  unfold _process_request, open_script, bind, lift, _deserialize.
  rewrite Hdecoded. cbn [fst snd].
  destruct j; try reflexivity. exfalso. eapply Hother. reflexivity.
Qed.

Lemma non_object_request_raises_witness :
  _process_request (Sample.env_of Sample.quiet [JArr [JInt 1]])
    (Sample.line_of (JArr [JInt 1])) (__init__ Sample.boot)
  = (Raise AttributeError, __init__ Sample.boot).
Proof.
  apply (non_object_request_raises (Sample.env_of Sample.quiet [JArr [JInt 1]])
           (Sample.line_of (JArr [JInt 1])) (JArr [JInt 1]) (__init__ Sample.boot)).
  - reflexivity.
  - discriminate.
Defined.

Lemma nth_update_nth {A : Type} (d x : A) : forall (l : list A) r,
  (r < length l)%nat -> nth r (update_nth r x l) d = x.
Proof.
  induction l as [|h t IH]; intros r Hr; [simpl in Hr; lia|].
  destruct r as [|r]; [reflexivity|]. simpl. apply IH. simpl in Hr. lia.
Qed.

(** [_set_request_config] leaves the list objects alone and binds
    [sys.path] to the baseline, whether it returns or raises. *)
Lemma set_request_config_bindings config st :
  let st' := snd (_set_request_config config st) in
  heap st' = heap st /\ sys_path st' = default_sys_path st
  /\ default_sys_path st' = default_sys_path st.
Proof.
  unfold _set_request_config, bind, modify, lift, raise.
  destruct config as [| | | | |c]; cbn [fst snd]; auto.
  destruct (iterate (Json.get c "extraPaths" (JArr []))) as [paths|e]; cbn [fst snd];
    auto.
  match goal with |- context [extra_paths_loop paths ?s] =>
    destruct (extra_paths_loop_filter paths s) as [_ [H2 H3]];
    assert (H4 : default_sys_path (extra_paths_loop paths s) = default_sys_path s)
  end.
  { clear. match goal with |- default_sys_path (extra_paths_loop _ ?s) = _ =>
             generalize s end.
    induction paths as [|p paths IH]; intros s; [reflexivity|].
    cbn [extra_paths_loop].
    destruct (Json.truthy p && negb (in_paths p (deref s (sys_path s))));
      rewrite IH; reflexivity. }
  rewrite H2, H3, H4. auto.
Qed.

(** X23: once the script of a request is built, the package root of its
    path is on [sys.path]: the list is the baseline as it was when the root
    was on it already, and the baseline with the root put in front of it
    otherwise; and the root is the project path handed to the engine. *)
Theorem root_is_on_search_path (env : Env) (request : string) (st st1 : State)
    (r : list (string * json)) (script : Script)
    (Hheap : (default_sys_path st < length (heap st))%nat)
    (Hopen : open_script env request st = (Ok (r, script), st1)) :
  Py.mem (project_path script) (search_path (settings st1)) = true
  /\ search_path (settings st1)
     = (if Py.mem (project_path script) (deref st (default_sys_path st))
        then deref st (default_sys_path st)
        else project_path script :: deref st (default_sys_path st))
  /\ exists p, Json.get r "path" (JStr EmptyString) = JStr p
               /\ project_path script = _get_top_level_module env p.
Proof.
  unfold open_script, bind, lift, _deserialize in Hopen.
  destruct (json_loads env request) as [[| | | | |r0]|]; try discriminate.
  cbn [fst snd] in Hopen.
  pose proof (set_request_config_bindings (Json.get r0 "config" (JObj [])) st)
    as [Hh [Hs _]].
  destruct (_set_request_config (Json.get r0 "config" (JObj [])) st) as [[u|e] st0];
    [|discriminate].
  cbn [snd] in Hh, Hs.
  destruct (Json.get r0 "path" (JStr EmptyString)) as [| | |p| |] eqn:Hp;
    try discriminate.
  cbn [modify fst snd] in Hopen.
  set (root := _get_top_level_module env p) in *.
  set (st2 := if Py.mem root (deref st0 (sys_path st0)) then st0
              else sys_path_insert0 root st0) in *.
  assert (Hbase : deref st0 (sys_path st0) = deref st (default_sys_path st)).
  { unfold deref. rewrite Hh, Hs. reflexivity. }
  assert (Hlist : deref st2 (sys_path st2)
                  = if Py.mem root (deref st (default_sys_path st))
                    then deref st (default_sys_path st)
                    else root :: deref st (default_sys_path st)).
  { subst st2. rewrite <- Hbase.
    destruct (Py.mem root (deref st0 (sys_path st0))) eqn:Hm; [reflexivity|].
    unfold sys_path_insert0, deref. cbn.
    rewrite nth_update_nth by (rewrite Hh, Hs; exact Hheap). reflexivity. }
  assert (Hmem : Py.mem root (deref st2 (sys_path st2)) = true).
  { rewrite Hlist.
    destruct (Py.mem root (deref st (default_sys_path st))) eqn:Hm; [exact Hm|].
    cbn. rewrite String.eqb_refl. reflexivity. }
  destruct (getitem r0 "source") as [source|e]; [|discriminate].
  cbn [fst snd] in Hopen.
  destruct (new_Script (jedi env) (settings st2) source (JStr p) root (extra_paths st2))
    as [u'|e]; [|discriminate].
  cbn [fst snd rbind] in Hopen.
  destruct (getitem r0 "line") as [ln|e]; [|discriminate].
  cbn [rbind] in Hopen.
  destruct (plus_one ln) as [z|e]; [|discriminate].
  destruct (getitem r0 "column") as [col|e]; [|discriminate].
  cbn [fst snd ret] in Hopen. injection Hopen as <- <- <-.
  split; [exact Hmem|]. split; [exact Hlist|].
  exists p. split; [exact Hp | reflexivity].
Qed.

Lemma root_is_on_search_path_witness :
  let env := Sample.env_of Sample.quiet [Sample.request_B] in
  let opened := open_script env (Sample.line_of Sample.request_B) (__init__ Sample.boot) in
  match fst opened with
  | Ok (r, script) =>
      Py.mem (project_path script) (search_path (settings (snd opened))) = true
      /\ search_path (settings (snd opened))
         = (if Py.mem (project_path script) Sample.boot then Sample.boot
            else project_path script :: Sample.boot)
  | Raise _ => False
  end.
Proof.
  intros env opened. subst opened.
  destruct (open_script env (Sample.line_of Sample.request_B) (__init__ Sample.boot))
    as [[[r script]|e] st1] eqn:E; cbn [fst snd].
  - destruct (root_is_on_search_path env (Sample.line_of Sample.request_B)
                (__init__ Sample.boot) st1 r script
                ltac:(cbn; lia) E) as [H1 [H2 _]].
    split; [exact H1 | exact H2].
  - vm_compute in E. discriminate E.
Defined.

(** ** [watch] *)

Lemma watch_redirects_first env lines st :
  watch env lines (set_streams Devnull Devnull st) = watch env lines st.
Proof. destruct lines; reflexivity. Qed.

Lemma watch_ends_redirected env lines : forall st,
  set_streams Devnull Devnull (snd (watch env lines st)) = snd (watch env lines st).
Proof.
  induction lines as [|request rest IH]; intros st; [reflexivity|].
  rewrite watch_cons. destruct (Py.nonempty request); cbn [negb]; [|reflexivity].
  destruct (_process_request env request (set_streams Devnull Devnull st))
    as [[u|e] st']; apply IH.
Qed.

Lemma watch_app env first second :
  Forall (fun l => l <> EmptyString) first ->
  forall st,
    watch env (first ++ second)%list st = watch env second (snd (watch env first st)).
Proof.
  induction 1 as [|request rest Hne _ IH]; intros st.
  - cbn [app watch snd]. symmetry. apply watch_redirects_first.
  - cbn [app]. rewrite !watch_cons.
    destruct request; [contradiction|]. cbn [Py.nonempty negb].
    destruct (_process_request env (String a request) (set_streams Devnull Devnull st))
      as [[u|e] st']; apply IH.
Qed.

(** X24: the loop keeps no state of its own between requests: handling the
    lines of one input after those of another is handling the two inputs
    chained, provided no line of the first is the empty read; the output
    of the whole is the output of the first followed by what the second
    adds. *)
Theorem watch_chains (env : Env) (first second : list string) (st : State)
    (Hlines : Forall (fun l => l <> EmptyString) first) :
  watch env (first ++ second)%list st = watch env second (snd (watch env first st))
  /\ (Forall (fun l => l <> EmptyString) second ->
      exists out1 out2,
        stdout_data (snd (watch env first st)) = (stdout_data st ++ out1)%list
        /\ stdout_data (snd (watch env (first ++ second)%list st))
           = (stdout_data st ++ out1 ++ out2)%list
        /\ Forall response_line (out1 ++ out2)%list).
Proof.
  pose proof (watch_app env first second Hlines st) as E.
  split; [exact E|]. intros Hsecond. rewrite E.
  destruct (watch_outcome env first st Hlines) as [_ [out1 [err1 [H1 [_ [_ [Hl1 _]]]]]]].
  destruct (watch_outcome env second (snd (watch env first st)) Hsecond)
    as [_ [out2 [err2 [H2 [_ [_ [Hl2 _]]]]]]].
  exists out1, out2. split; [exact H1|]. split.
  - rewrite H2, H1, <- app_assoc. reflexivity.
  - apply Forall_app. auto.
Qed.

Lemma watch_chains_witness :
  let env := Sample.env_of Sample.quiet [Sample.request_A; Sample.request_B] in
  watch env [Sample.line_of Sample.request_A; Sample.line_of Sample.request_B]
    (__init__ Sample.boot)
  = watch env [Sample.line_of Sample.request_B]
      (snd (watch env [Sample.line_of Sample.request_A] (__init__ Sample.boot))).
Proof.
  intros env.
  apply (proj1 (watch_chains env [Sample.line_of Sample.request_A]
                  [Sample.line_of Sample.request_B] (__init__ Sample.boot)
                  ltac:(repeat constructor; discriminate))).
Defined.

(** X25: the loop ends at the first empty read: nothing after it is
    handled, and the state is the one the lines before it left. *)
Theorem watch_stops_at_empty_read (env : Env) (before after : list string)
    (st : State)
    (Hlines : Forall (fun l => l <> EmptyString) before) :
  watch env (before ++ EmptyString :: after)%list st
  = (after, snd (watch env before st)).
Proof.
  rewrite (watch_app env before _ Hlines st), watch_cons.
  cbn [Py.nonempty negb]. rewrite watch_ends_redirected. reflexivity.
Qed.

Lemma watch_stops_at_empty_read_witness :
  let env := Sample.env_of Sample.quiet [Sample.request_A; Sample.request_B] in
  watch env [Sample.line_of Sample.request_A; EmptyString; Sample.line_of Sample.request_B]
    (__init__ Sample.boot)
  = ([Sample.line_of Sample.request_B],
     snd (watch env [Sample.line_of Sample.request_A] (__init__ Sample.boot))).
Proof.
  intros env.
  apply (watch_stops_at_empty_read env [Sample.line_of Sample.request_A]
           [Sample.line_of Sample.request_B] (__init__ Sample.boot)).
  repeat constructor. discriminate.
Defined.
